(** * PhotoVault services: face detection / tagging and app storage

    A shallow embedding of
      - photovault/services/face_detection_service.py  (FaceDetectionService)
      - photovault/services/app_storage_service.py     (AppStorageService)
    together with the properties of their public operations.

    Python values are embedded as follows.
      - integers are [Z]; strings are [string]; [None]-able values are [option];
      - a database table is a finite map from primary key to row ([gmap Z row]);
      - a raised exception is the [Throws] case of [outcome], carrying [str(e)];
      - code that talks to the database session is a function
        [Db -> outcome A * Db] (the monad [M]);
      - the dictionary returned by the statistics query is a [gmap string pyval],
        because its key set differs between the normal and the failure path;
      - calls to [logger] have no effect on any returned value or stored
        row and are left out. *)

From Stdlib Require Import QArith.
From stdpp Require Import gmap strings list fin_maps pretty.

Close Scope Q_scope.
Open Scope Z_scope.

(* ===================================================================== *)
(** ** Exceptions *)
(* ===================================================================== *)

(** The result of evaluating a Python expression that may raise. *)
Inductive outcome (A : Type) : Type :=
| Returns (a : A)
| Throws (msg : string).
Arguments Returns {A} a.
Arguments Throws {A} msg.

Definition outcome_bind {A B} (o : outcome A) (k : A -> outcome B) : outcome B :=
  match o with
  | Returns a => k a
  | Throws msg => Throws msg
  end.

Notation "'let?' x ':=' o 'in' k" := (outcome_bind o (fun x => k))
  (at level 10, x name, o at level 100, k at level 200).

(* ===================================================================== *)
(** ** Data model (photovault.models) *)
(* ===================================================================== *)

(** Modelled from the spec: photovault/models.py is not part of the sources.
    The rows carry the columns that the two services read or write, typed as
    in the data model of the specification (section 3).  The primary key of a
    row is its key in the table. *)
Record Photo := mkPhoto {
  photo_user_id : Z;
  file_path : string
}.

Record Person := mkPerson {
  person_user_id : Z;
  person_name : string
}.

(** A face region.  [confidence] is a Python float in the source; it is kept
    as a rational, and nothing below computes with it. *)
Record PhotoPerson := mkPhotoPerson {
  photo_id : Z;
  person_id : option Z;
  face_x : Z;
  face_y : Z;
  face_width : Z;
  face_height : Z;
  confidence : Q;
  verified : bool
}.

(** [photo_person.person_id = v] and [photo_person.verified = v]. *)
Definition set_person_id (v : option Z) (r : PhotoPerson) : PhotoPerson :=
  mkPhotoPerson (photo_id r) v (face_x r) (face_y r) (face_width r)
                (face_height r) (confidence r) (verified r).

Definition set_verified (v : bool) (r : PhotoPerson) : PhotoPerson :=
  mkPhotoPerson (photo_id r) (person_id r) (face_x r) (face_y r) (face_width r)
                (face_height r) (confidence r) v.

(* ===================================================================== *)
(** ** The database session (db.session) *)
(* ===================================================================== *)

(** The statements the services issue, recorded in the order of execution. *)
Inductive DbOp :=
| OpPhotoGet (id : Z)
| OpRegionGet (id : Z)
| OpRegionFind (photo x y w h : Z)
| OpCount (query : string)
| OpAdd (r : PhotoPerson)
| OpCommit
| OpRollback.

Definition is_add (op : DbOp) : bool :=
  match op with OpAdd _ => true | _ => false end.

(** Number of [db.session.add] calls recorded in a trace. *)
Definition adds (t : list DbOp) : nat := length (filter (fun op => is_add op = true) t).

(** Modelled from the spec: the [db] object of photovault/models.py is not
    part of the sources.  It is a transactional session over a relational
    store, as section 6 describes the repositories:
      - [committed] is the durable PhotoPerson table;
      - [txn] is the table as the open transaction sees it (committed rows
        plus flushed, uncommitted changes);
      - [session_new] are the objects passed to [db.session.add] that were not
        flushed yet; [session_dirty] are loaded objects with modified
        attributes that were not flushed yet;
      - [autoflush] is the session option that flushes before each query;
      - [faults] is the schedule of database errors: the next statement raises
        with message [msg] when the head is [Some msg];
      - [trace] records the statements issued so far. *)
Record Db := mkDb {
  photos : gmap Z Photo;
  people : gmap Z Person;
  committed : gmap Z PhotoPerson;
  txn : gmap Z PhotoPerson;
  session_new : list PhotoPerson;
  session_dirty : gmap Z PhotoPerson;
  autoflush : bool;
  faults : list (option string);
  trace : list DbOp
}.

(** Code running against the session. *)
Definition M (A : Type) : Type := Db -> outcome A * Db.

Definition ret {A} (a : A) : M A := fun db => (Returns a, db).

Definition bind {A B} (m : M A) (k : A -> M B) : M B :=
  fun db =>
    match m db with
    | (Returns a, db') => k a db'
    | (Throws msg, db') => (Throws msg, db')
    end.

Notation "'let!' x ':=' m 'in' k" := (bind m (fun x => k))
  (at level 10, x name, m at level 100, k at level 200).
Notation "m1 '>>' m2" := (bind m1 (fun _ => m2))
  (at level 80, right associativity).

(** [try: m except Exception as e: h e] for a handler that does not raise. *)
Definition try_except {A} (m : M A) (h : string -> Db -> A * Db) : Db -> A * Db :=
  fun db =>
    match m db with
    | (Returns a, db') => (a, db')
    | (Throws msg, db') => h msg db'
    end.

(** [for x in l: body x]. *)
Fixpoint for_each {A} (l : list A) (body : A -> M unit) : M unit :=
  match l with
  | [] => ret tt
  | x :: l' => body x >> for_each l' body
  end.

(** The session after one more statement was sent: the statement is
    recorded and the fault schedule advances. *)
Definition record_call (op : DbOp) (db : Db) : Db :=
  mkDb (photos db) (people db) (committed db) (txn db)
       (session_new db) (session_dirty db) (autoflush db)
       (tail (faults db)) (trace db ++ [op]).

(** Issue one statement: it raises when the fault schedule says so. *)
Definition db_call (op : DbOp) : M unit :=
  fun db =>
    match head (faults db) with
    | Some (Some msg) => (Throws msg, record_call op db)
    | _ => (Returns tt, record_call op db)
    end.

(** The next value of the auto-increment primary key. *)
Definition next_id (m : gmap Z PhotoPerson) : Z :=
  Z.succ (map_fold (fun k _ acc => Z.max k acc) 0 m).

Definition insert_row (m : gmap Z PhotoPerson) (r : PhotoPerson) : gmap Z PhotoPerson :=
  <[next_id m := r]> m.

(** The rows as the session's objects show them. *)
Definition session_view (db : Db) : gmap Z PhotoPerson :=
  session_dirty db ∪ txn db.

(** Flush: write modified objects, then insert the new ones. *)
Definition flushed (db : Db) : gmap Z PhotoPerson :=
  foldl insert_row (session_view db) (session_new db).

Definition flush (db : Db) : Db :=
  mkDb (photos db) (people db) (committed db) (flushed db) [] ∅
       (autoflush db) (faults db) (trace db).

(** What a query does first when the session has [autoflush] on. *)
Definition autoflushed (db : Db) : Db :=
  if autoflush db then flush db else db.

Definition do_autoflush : M unit :=
  fun db => (Returns tt, autoflushed db).

(** A query: one statement, evaluated on the session after the autoflush. *)
Definition query {A} (op : DbOp) (read : Db -> A) : M A :=
  db_call op >> do_autoflush >>
  fun db => (Returns (read db), db).

(** [db.session.add(obj)]. *)
Definition session_add (r : PhotoPerson) : M unit :=
  fun db =>
    (Returns tt,
     mkDb (photos db) (people db) (committed db) (txn db)
          (session_new db ++ [r]) (session_dirty db) (autoflush db)
          (faults db) (trace db ++ [OpAdd r])).

(** [db.session.commit()]: flush and make the transaction durable. *)
Definition session_commit : M unit :=
  db_call OpCommit >>
  fun db =>
    (Returns tt,
     mkDb (photos db) (people db) (flushed db) (flushed db) [] ∅
          (autoflush db) (faults db) (trace db)).

(** [db.session.rollback()]: drop everything that is not durable. *)
Definition session_rollback (db : Db) : Db :=
  mkDb (photos db) (people db) (committed db) (committed db) [] ∅
       (autoflush db) (faults db) (trace db ++ [OpRollback]).

(** [Photo.query.get(photo_id)]. *)
Definition Photo_query_get (id : Z) : M (option Photo) :=
  query (OpPhotoGet id) (fun db => photos db !! id).

(** [PhotoPerson.query.get(id)]: the session's object for that key. *)
Definition PhotoPerson_query_get (id : Z) : M (option PhotoPerson) :=
  query (OpRegionGet id) (fun db => session_view db !! id).

(** The filter of
    [PhotoPerson.query.filter_by(photo_id=, face_x=, face_y=, face_width=, face_height=)]. *)
Definition same_region (photo x y w h : Z) (r : PhotoPerson) : Prop :=
  photo_id r = photo /\ face_x r = x /\ face_y r = y /\
  face_width r = w /\ face_height r = h.

#[global] Instance same_region_dec photo x y w h r :
  Decision (same_region photo x y w h r).
Proof. unfold same_region. apply _. Defined.

(** Whether a statement is a [db.session.add] of a region with the given
    photo and rectangle. *)
Definition is_add_of (photo x y w h : Z) (op : DbOp) : bool :=
  match op with
  | OpAdd r => bool_decide (same_region photo x y w h r)
  | _ => false
  end.

(** Number of [db.session.add] calls for that photo and rectangle. *)
Definition adds_of (photo x y w h : Z) (t : list DbOp) : nat :=
  length (filter (fun op => is_add_of photo x y w h op = true) t).

(** [....filter_by(...).first()]: a matching row of the transaction, if any. *)
Definition PhotoPerson_filter_by_first (photo x y w h : Z) : M (option PhotoPerson) :=
  query (OpRegionFind photo x y w h)
        (fun db => head (filter (same_region photo x y w h) (map_to_list (txn db)).*2)).

(** The session after the object with key [id] was given the state [r]. *)
Definition mark_dirty (id : Z) (r : PhotoPerson) (db : Db) : Db :=
  mkDb (photos db) (people db) (committed db) (txn db) (session_new db)
       (<[id := r]> (session_dirty db)) (autoflush db) (faults db) (trace db).

(** Attribute assignment on a loaded PhotoPerson object. *)
Definition setattr (id : Z) (f : PhotoPerson -> PhotoPerson) : M unit :=
  fun db =>
    (Returns tt,
     match session_view db !! id with
     | Some r => mark_dirty id (f r) db
     | None => db
     end).

(** A clean session: nothing pending, the transaction shows the durable
    table.  This is the state between two requests. *)
Definition clean (db : Db) : Prop :=
  txn db = committed db /\ session_new db = [] /\ session_dirty db = ∅.

(* ===================================================================== *)
(** ** The detection engine and the file system *)
(* ===================================================================== *)

(** The part of the [cv2] module that the service calls.  [Mat] is the type
    of decoded images.  [detectMultiScale] stands for loading
    [haarcascade_frontalface_default.xml] into a [CascadeClassifier] and
    calling its [detectMultiScale] with [scaleFactor=1.1], [minNeighbors=5],
    [minSize=(30, 30)]; it yields rectangles [(x, y, w, h)]. *)
Record Cv2 := mkCv2 {
  Mat : Type;
  imread : string -> outcome (option Mat);
  cvtColor_BGR2GRAY : Mat -> outcome Mat;
  detectMultiScale : Mat -> outcome (list (Z * Z * Z * Z))
}.

(** The paths for which [os.path.exists] is true. *)
Definition os_path_exists (fs : gset string) (path : string) : bool :=
  bool_decide (path ∈ fs).

(* ===================================================================== *)
(** ** FaceDetectionService *)
(* ===================================================================== *)

Record FaceDetectionService := mkFaceDetectionService {
  _available : bool;
  _cv2 : option Cv2
}.

(** [__init__]: [import cv2] either yields the module or raises ImportError. *)
Definition FaceDetectionService_init (import_cv2 : option Cv2) : FaceDetectionService :=
  match import_cv2 with
  | Some cv2 => mkFaceDetectionService true (Some cv2)
  | None => mkFaceDetectionService false None
  end.

Definition is_available (self : FaceDetectionService) : bool := _available self.

(** One entry of the list returned by [detect_faces_in_photo]: a dictionary
    with the fixed keys 'id', 'x', 'y', 'width', 'height', 'confidence'. *)
Module Face.
Record t := mk {
  id : nat;
  x : Z;
  y : Z;
  width : Z;
  height : Z;
  confidence : Q
}.
End Face.

(** The placeholder confidence [0.8]. *)
Definition placeholder_confidence : Q := (8 # 10)%Q.

(** The [try] block of [detect_faces_in_photo]. *)
Definition detect_faces_body (self : FaceDetectionService) (photo_path : string)
  : outcome (list Face.t) :=
  match _cv2 self with
  | None => Throws "AttributeError: 'FaceDetectionService' object has no attribute '_cv2'"
  | Some cv2 =>
      let? image := imread cv2 photo_path in
      match image with
      | None => Returns []
      | Some image =>
          let? gray := cvtColor_BGR2GRAY cv2 image in
          let? faces := detectMultiScale cv2 gray in
          Returns (imap (fun i '(x, y, w, h) => Face.mk i x y w h placeholder_confidence) faces)
      end
  end.

Definition detect_faces_in_photo (self : FaceDetectionService) (photo_path : string)
  : list Face.t :=
  if negb (_available self) then []
  else
    match detect_faces_body self photo_path with
    | Returns face_results => face_results
    | Throws _ => []
    end.

(** The body of the [for face in faces] loop of [process_photo_for_faces]. *)
Definition store_face (photo_id : Z) (face : Face.t) : M unit :=
  let! existing := PhotoPerson_filter_by_first photo_id (Face.x face) (Face.y face)
                     (Face.width face) (Face.height face) in
  match existing with
  | Some _ => ret tt
  | None =>
      session_add (mkPhotoPerson photo_id None (Face.x face) (Face.y face)
                     (Face.width face) (Face.height face)
                     (Face.confidence face) false)
  end.

(** The [try] block of [process_photo_for_faces]. *)
Definition process_photo_body (self : FaceDetectionService) (fs : gset string)
    (photo_id : Z) : M bool :=
  let! photo := Photo_query_get photo_id in
  match photo with
  | None => ret false
  | Some photo =>
      let photo_path := file_path photo in
      if negb (os_path_exists fs photo_path) then ret false
      else
        let faces := detect_faces_in_photo self photo_path in
        match faces with
        | _ :: _ =>
            for_each faces (store_face photo_id) >>
            session_commit >>
            ret true
        | [] => ret true
        end
  end.

Definition process_photo_for_faces (self : FaceDetectionService) (fs : gset string)
    (photo_id : Z) : Db -> bool * Db :=
  if negb (_available self) then fun db => (false, db)
  else
    try_except (process_photo_body self fs photo_id)
               (fun _ db => (false, session_rollback db)).

(** The [try] block of [tag_face]. *)
Definition tag_face_body (photo_person_id person_id : Z) : M bool :=
  let! photo_person := PhotoPerson_query_get photo_person_id in
  match photo_person with
  | None => ret false
  | Some _ =>
      setattr photo_person_id (set_person_id (Some person_id)) >>
      setattr photo_person_id (set_verified true) >>
      session_commit >>
      ret true
  end.

Definition tag_face (photo_person_id person_id : Z) : Db -> bool * Db :=
  try_except (tag_face_body photo_person_id person_id)
             (fun _ db => (false, session_rollback db)).

(** Values stored in the statistics dictionary. *)
Inductive pyval :=
| PInt (n : Z)
| PBool (b : bool)
| PStr (s : string).

(** A counting query. *)
Definition query_count (name : string) (q : Db -> nat) : M Z :=
  query (OpCount name) (fun db => Z.of_nat (q db)).

(** [Photo.query.filter_by(user_id=user_id).count()] *)
Definition count_photos (user_id : Z) (db : Db) : nat :=
  size (filter (fun kv => photo_user_id kv.2 = user_id) (photos db)).

(** [db.session.query(Photo).join(PhotoPerson).filter(Photo.user_id == user_id).distinct().count()] *)
Definition count_photos_with_faces (user_id : Z) (db : Db) : nat :=
  size (filter (fun kv => photo_user_id kv.2 = user_id /\
                          map_Exists (fun _ r => photo_id r = kv.1) (txn db))
               (photos db)).

(** [PhotoPerson.query.join(Photo).filter(Photo.user_id == user_id, PhotoPerson.verified == v).count()] *)
Definition count_tags (user_id : Z) (v : bool) (db : Db) : nat :=
  size (filter (fun kv => photo_user_id <$> photos db !! photo_id kv.2 = Some user_id /\
                          verified kv.2 = v)
               (txn db)).

(** [Person.query.filter_by(user_id=user_id).count()] *)
Definition count_people (user_id : Z) (db : Db) : nat :=
  size (filter (fun kv => person_user_id kv.2 = user_id) (people db)).

(** The [try] block of [get_face_detection_stats]. *)
Definition stats_body (self : FaceDetectionService) (user_id : Z)
  : M (gmap string pyval) :=
  let! total_photos := query_count "total_photos" (count_photos user_id) in
  let! photos_with_faces :=
    query_count "photos_with_faces" (count_photos_with_faces user_id) in
  let! verified_tags := query_count "verified_tags" (count_tags user_id true) in
  let! unverified_tags := query_count "unverified_tags" (count_tags user_id false) in
  let! unique_people := query_count "unique_people" (count_people user_id) in
  ret (<["total_photos" := PInt total_photos]>
       (<["photos_with_faces" := PInt photos_with_faces]>
       (<["verified_tags" := PInt verified_tags]>
       (<["unverified_tags" := PInt unverified_tags]>
       (<["unique_people" := PInt unique_people]>
       (<["detection_available" := PBool (_available self)]> ∅)))))).

(** The dictionary built in the [except] branch. *)
Definition stats_error (e : string) : gmap string pyval :=
  <["total_photos" := PInt 0]>
  (<["photos_with_faces" := PInt 0]>
  (<["verified_tags" := PInt 0]>
  (<["unverified_tags" := PInt 0]>
  (<["unique_people" := PInt 0]>
  (<["detection_available" := PBool false]>
  (<["error" := PStr e]> ∅)))))).

Definition get_face_detection_stats (self : FaceDetectionService) (user_id : Z)
  : Db -> gmap string pyval * Db :=
  try_except (stats_body self user_id) (fun e db => (stats_error e, db)).

(* ===================================================================== *)
(** ** AppStorageService *)
(* ===================================================================== *)

Module AppStorage.

(** The remote object store: its objects and the uploads it has received. *)
Record Bucket := mkBucket {
  objects : gmap string (list Byte.byte);
  requests : list string
}.

(** The part of the [replit_object_storage] module that [upload_file] calls:
    [upload_file(file, path)] returns nothing or raises. *)
Record ObjectStorage := mkObjectStorage {
  storage_upload_file : list Byte.byte -> string -> Bucket -> outcome unit * Bucket
}.

Record AppStorageService := mkAppStorageService {
  _available : bool;
  _storage : option ObjectStorage
}.

(** [__init__]: [import replit_object_storage] yields the module or raises
    ImportError. *)
Definition init (import_storage : option ObjectStorage) : AppStorageService :=
  match import_storage with
  | Some m => mkAppStorageService true (Some m)
  | None => mkAppStorageService false None
  end.

Definition is_available (self : AppStorageService) : bool := _available self.

(** Truth value of an [Optional[str]]: [None] and the empty string are false. *)
Definition truthy (user_id : option string) : bool :=
  match user_id with
  | None => false
  | Some u => negb (bool_decide (u = ""))
  end.

(** The storage path chosen by [if user_id: ... else: ...]. *)
Definition storage_path_for (filename : string) (user_id : option string) : string :=
  if truthy user_id then "users/" +:+ default "" user_id +:+ "/" +:+ filename
  else "uploads/" +:+ filename.

(** The [try] block of [upload_file]. *)
Definition upload_file_body (self : AppStorageService) (file : list Byte.byte)
    (filename : string) (user_id : option string)
  : Bucket -> outcome string * Bucket :=
  fun b =>
    let storage_path := storage_path_for filename user_id in
    match _storage self with
    | None =>
        (Throws "AttributeError: 'AppStorageService' object has no attribute '_storage'", b)
    | Some m =>
        match storage_upload_file m file storage_path b with
        | (Returns _, b') => (Returns storage_path, b')
        | (Throws e, b') => (Throws e, b')
        end
    end.

Definition upload_file (self : AppStorageService) (file : list Byte.byte)
    (filename : string) (user_id : option string)
  : Bucket -> (bool * string) * Bucket :=
  fun b =>
    if negb (_available self) then ((false, "App storage not available"), b)
    else
      match upload_file_body self file filename user_id b with
      | (Returns storage_path, b') => ((true, storage_path), b')
      | (Throws e, b') => ((false, e), b')
      end.

End AppStorage.

(* ===================================================================== *)
(** ** The operations that write to the region store *)
(* ===================================================================== *)

Inductive operation :=
| ProcessPhoto (self : FaceDetectionService) (fs : gset string) (photo_id : Z)
| TagFace (photo_person_id person_id : Z).

Definition run (op : operation) : Db -> bool * Db :=
  match op with
  | ProcessPhoto self fs photo_id => process_photo_for_faces self fs photo_id
  | TagFace photo_person_id person_id => tag_face photo_person_id person_id
  end.

(** The operation enters its [try] block and an exception [e] escapes it. *)
Definition raises (op : operation) (db : Db) (e : string) : Prop :=
  match op with
  | ProcessPhoto self fs photo_id =>
      _available self = true /\
      (process_photo_body self fs photo_id db).1 = Throws e
  | TagFace photo_person_id person_id =>
      (tag_face_body photo_person_id person_id db).1 = Throws e
  end.

(** The message of the first database error scheduled within the next [n]
    statements, if any. *)
Fixpoint first_fault (n : nat) (fs : list (option string)) : option string :=
  match n, fs with
  | S _, Some msg :: _ => Some msg
  | S n', None :: fs' => first_fault n' fs'
  | _, _ => None
  end.

(** The consistency predicate on one region: [verified] is set exactly when
    a person is assigned. *)
Definition region_ok (r : PhotoPerson) : Prop :=
  (person_id r = None -> verified r = false) /\
  (person_id r <> None -> verified r = true).

(** The predicate on the whole store: durable rows, the rows of the open
    transaction, and the session's pending objects. *)
Definition store_ok (db : Db) : Prop :=
  map_Forall (fun _ r => region_ok r) (committed db) /\
  map_Forall (fun _ r => region_ok r) (txn db) /\
  Forall region_ok (session_new db) /\
  map_Forall (fun _ r => region_ok r) (session_dirty db).

(** A region with the given geometry is stored for the photo. *)
Definition has_region (m : gmap Z PhotoPerson) (photo : Z) (face : Face.t) : Prop :=
  map_Exists (fun _ r => same_region photo (Face.x face) (Face.y face)
                           (Face.width face) (Face.height face) r) m.

(** The image file cannot be decoded: [cv2.imread] returns [None] or raises. *)
Definition unreadable (self : FaceDetectionService) (photo_path : string) : Prop :=
  exists cv2, _cv2 self = Some cv2 /\
    (imread cv2 photo_path = Returns None \/
     exists e, imread cv2 photo_path = Throws e).

(** A computation that never changes the durable table. *)
Definition stable {A} (m : M A) : Prop :=
  forall db, committed (m db).2 = committed db.

(** A computation that leaves the durable table alone when it raises. *)
Definition stable_on_throw {A} (m : M A) : Prop :=
  forall db e, (m db).1 = Throws e -> committed (m db).2 = committed db.

(** A computation that keeps a predicate on the session. *)
Definition keeps {A} (I : Db -> Prop) (m : M A) : Prop :=
  forall db, I db -> I (m db).2.

(** The faces that detection reports for the photo are all stored. *)
Definition faces_stored (self : FaceDetectionService) (photo_id : Z) (db : Db) : Prop :=
  forall photo face,
    photos db !! photo_id = Some photo ->
    face ∈ detect_faces_in_photo self (file_path photo) ->
    has_region (committed db) photo_id face.

(** The bookkeeping of the loop: relative to the trace [t0] at the start of
    the call, each rectangle was added at most once, and a rectangle that
    was added is visible after a flush. *)
Definition added_once (photo : Z) (t0 : list DbOp) (db : Db) : Prop :=
  autoflush db = true /\ session_dirty db = ∅ /\
  forall x y w h,
    (adds_of photo x y w h (trace db) <= S (adds_of photo x y w h t0))%nat /\
    ((adds_of photo x y w h t0 < adds_of photo x y w h (trace db))%nat ->
     map_Exists (fun _ r => same_region photo x y w h r) (flushed db)).

(* ===================================================================== *)
(** ** A concrete scenario *)
(* ===================================================================== *)

Module Scenario.

(** A detection engine whose decoded image is the path it was read from.
    It cannot decode "broken.jpg", finds no face in "landscape.jpg" and the
    two faces (10,10,50,50) and (100,10,50,50) in every other image. *)
Definition cv2 : Cv2 :=
  mkCv2 string
    (fun path => if bool_decide (path = "broken.jpg") then Returns None
                 else Returns (Some path))
    (fun image => Returns image)
    (fun gray => if bool_decide (gray = "landscape.jpg") then Returns []
                 else Returns [(10, 10, 50, 50); (100, 10, 50, 50)]).

Definition service : FaceDetectionService := FaceDetectionService_init (Some cv2).
Definition disabled_service : FaceDetectionService := FaceDetectionService_init None.

(** The files on disk: the file of photo 4 is missing. *)
Definition disk : gset string := {[ "a.jpg"; "broken.jpg"; "landscape.jpg" ]}.

(** User 7 owns four photos; no region is stored yet. *)
Definition db0 : Db :=
  mkDb (<[1 := mkPhoto 7 "a.jpg"]>
        (<[2 := mkPhoto 7 "broken.jpg"]>
        (<[3 := mkPhoto 7 "landscape.jpg"]>
        (<[4 := mkPhoto 7 "gone.jpg"]> ∅))))
       (<[7 := mkPerson 7 "Ada"]> ∅)
       ∅ ∅ [] ∅ true [] [].

(** The same database with a schedule of database errors. *)
Definition with_faults (fs : list (option string)) (db : Db) : Db :=
  mkDb (photos db) (people db) (committed db) (txn db) (session_new db)
       (session_dirty db) (autoflush db) fs (trace db).

(** The database after photo 1 was processed: two regions are stored. *)
Definition db1 : Db := (process_photo_for_faces service disk 1 db0).2.

(** The region that detection stored for the first face of photo 1. *)
Definition region_A : PhotoPerson :=
  mkPhotoPerson 1 None 10 10 50 50 placeholder_confidence false.

(** An object store that accepts every upload. *)
Definition storage : AppStorage.ObjectStorage :=
  AppStorage.mkObjectStorage
    (fun file path b =>
       (Returns tt,
        AppStorage.mkBucket (<[path := file]> (AppStorage.objects b))
                            (AppStorage.requests b ++ [path]))).

Definition app_storage : AppStorage.AppStorageService :=
  AppStorage.init (Some storage).
Definition disabled_app_storage : AppStorage.AppStorageService :=
  AppStorage.init None.

Definition empty_bucket : AppStorage.Bucket := AppStorage.mkBucket ∅ [].

End Scenario.

(* ===================================================================== *)
(** ** AppStorageService: the remaining methods *)
(* ===================================================================== *)

Module StorageOps.

(** The [replit_object_storage] module as the service uses it: the upload
    entry point and [download_file], [delete_file], [file_exists].  Each
    call may raise and may change the store. *)
Record ReplitObjectStorage := mkReplitObjectStorage {
  uploader : AppStorage.ObjectStorage;
  storage_download_file :
    string -> AppStorage.Bucket -> outcome (list Byte.byte) * AppStorage.Bucket;
  storage_delete_file :
    string -> AppStorage.Bucket -> outcome unit * AppStorage.Bucket;
  storage_file_exists :
    string -> AppStorage.Bucket -> outcome bool * AppStorage.Bucket
}.

Record AppStorageService := mkAppStorageService {
  _available : bool;
  _storage : option ReplitObjectStorage
}.

(** [__init__]. *)
Definition init (import_storage : option ReplitObjectStorage) : AppStorageService :=
  match import_storage with
  | Some m => mkAppStorageService true (Some m)
  | None => mkAppStorageService false None
  end.

(** The service as [upload_file] sees it. *)
Definition for_upload (self : AppStorageService) : AppStorage.AppStorageService :=
  AppStorage.mkAppStorageService (_available self) (uploader <$> _storage self).

Definition upload_file (self : AppStorageService) (file : list Byte.byte)
    (filename : string) (user_id : option string)
  : AppStorage.Bucket -> (bool * string) * AppStorage.Bucket :=
  AppStorage.upload_file (for_upload self) file filename user_id.

(** [str.encode()]; strings are kept in their UTF-8 encoding. *)
Definition encode (s : string) : list Byte.byte := String.list_byte_of_string s.

Definition no_storage_attribute : string :=
  "AttributeError: 'AppStorageService' object has no attribute '_storage'".

(** [download_file]. *)
Definition download_file (self : AppStorageService) (file_path : string)
  : AppStorage.Bucket -> (bool * list Byte.byte) * AppStorage.Bucket :=
  fun b =>
    if negb (_available self) then ((false, encode "App storage not available"), b)
    else
      match _storage self with
      | None => ((false, encode no_storage_attribute), b)
      | Some m =>
          match storage_download_file m file_path b with
          | (Returns content, b') => ((true, content), b')
          | (Throws e, b') => ((false, encode e), b')
          end
      end.

(** [delete_file]. *)
Definition delete_file (self : AppStorageService) (file_path : string)
  : AppStorage.Bucket -> (bool * string) * AppStorage.Bucket :=
  fun b =>
    if negb (_available self) then ((false, "App storage not available"), b)
    else
      match _storage self with
      | None => ((false, no_storage_attribute), b)
      | Some m =>
          match storage_delete_file m file_path b with
          | (Returns _, b') => ((true, ""), b')
          | (Throws e, b') => ((false, e), b')
          end
      end.

(** [file_exists]. *)
Definition file_exists (self : AppStorageService) (file_path : string)
  : AppStorage.Bucket -> bool * AppStorage.Bucket :=
  fun b =>
    if negb (_available self) then (false, b)
    else
      match _storage self with
      | None => (false, b)
      | Some m =>
          match storage_file_exists m file_path b with
          | (Returns found, b') => (found, b')
          | (Throws _, b') => (false, b')
          end
      end.

(** [s.replace(c, new)] for a one-character [c]: every occurrence is
    replaced. *)
Fixpoint replace_char (c : Ascii.ascii) (new : string) (s : string) : string :=
  match s with
  | EmptyString => EmptyString
  | String a s' =>
      if decide (a = c) then new +:+ replace_char c new s'
      else String a (replace_char c new s')
  end.

Definition dot : Ascii.ascii := Ascii.Ascii false true true true false true false false.

(** The text [_thumb_{w}x{h}.] that takes the place of each dot. *)
Definition thumb_suffix (thumbnail_size : Z * Z) : string :=
  "_thumb_" +:+ pretty thumbnail_size.1 +:+ "x" +:+ pretty thumbnail_size.2 +:+ ".".

Definition default_thumbnail_size : Z * Z := (150, 150).

(** [create_thumbnail]: no image is produced, only the path is computed. *)
Definition create_thumbnail (self : AppStorageService) (file_path : string)
    (thumbnail_size : Z * Z) : bool * string :=
  if negb (_available self) then (false, "App storage not available")
  else (true, replace_char dot (thumb_suffix thumbnail_size) file_path).

(** A store that keeps what it is given: after a successful upload under a
    path, a download of that path succeeds with the uploaded content. *)
Definition keeps_uploads (m : ReplitObjectStorage) : Prop :=
  forall content path b b',
    AppStorage.storage_upload_file (uploader m) content path b = (Returns tt, b') ->
    exists b'', storage_download_file m path b' = (Returns content, b'').

(** A store in which a deleted path is gone. *)
Definition forgets_deleted (m : ReplitObjectStorage) : Prop :=
  forall path b b',
    storage_delete_file m path b = (Returns tt, b') ->
    exists b'', storage_file_exists m path b' = (Returns false, b'').

(** A store kept as a dictionary from path to content. *)
Definition dict_store : ReplitObjectStorage :=
  mkReplitObjectStorage
    (AppStorage.mkObjectStorage
       (fun content path b =>
          (Returns tt,
           AppStorage.mkBucket (<[path := content]> (AppStorage.objects b))
                               (AppStorage.requests b ++ [path]))))
    (fun path b =>
       match AppStorage.objects b !! path with
       | Some content => (Returns content, b)
       | None => (Throws "ObjectNotFoundError", b)
       end)
    (fun path b =>
       match AppStorage.objects b !! path with
       | Some _ =>
           (Returns tt,
            AppStorage.mkBucket (delete path (AppStorage.objects b))
                                (AppStorage.requests b))
       | None => (Throws "ObjectNotFoundError", b)
       end)
    (fun path b => (Returns (bool_decide (is_Some (AppStorage.objects b !! path))), b)).

End StorageOps.

(* ===================================================================== *)
(** ** Further predicates on the region store *)
(* ===================================================================== *)

(** A computation that changes the durable table only when it returns
    [True]. *)
Definition stable_unless_true (m : M bool) : Prop :=
  forall db, (m db).1 <> Returns true -> committed (m db).2 = committed db.

(** The row that [tag_face] leaves for a region. *)
Definition tagged (person : Z) (r : PhotoPerson) : PhotoPerson :=
  set_verified true (set_person_id (Some person) r).

(** A row as [process_photo_for_faces] creates it for one of the faces. *)
Definition detection_row (photo : Z) (faces : list Face.t) (r : PhotoPerson) : Prop :=
  exists face, face ∈ faces /\
    r = mkPhotoPerson photo None (Face.x face) (Face.y face) (Face.width face)
          (Face.height face) (Face.confidence face) false.

(** The loop of [process_photo_for_faces] keeps the rows [m0] it started
    with and adds nothing but detection rows. *)
Definition only_detections (photo : Z) (faces : list Face.t)
    (m0 : gmap Z PhotoPerson) (db : Db) : Prop :=
  session_dirty db = ∅ /\
  m0 ⊆ flushed db /\
  forall k r, flushed db !! k = Some r ->
    m0 !! k = Some r \/ detection_row photo faces r.

(** No two regions of one photo have the same rectangle. *)
Definition no_duplicate_regions (m : gmap Z PhotoPerson) : Prop :=
  forall k1 k2 r1 r2,
    m !! k1 = Some r1 -> m !! k2 = Some r2 ->
    same_region (photo_id r1) (face_x r1) (face_y r1) (face_width r1)
                (face_height r1) r2 ->
    k1 = k2.

(** The loop invariant for [no_duplicate_regions] when autoflush is on. *)
Definition duplicate_free (db : Db) : Prop :=
  autoflush db = true /\ session_dirty db = ∅ /\
  no_duplicate_regions (flushed db).

(** The regions on photos of a user. *)
Definition count_regions (user_id : Z) (db : Db) : nat :=
  size (filter (fun kv => photo_user_id <$> photos db !! photo_id kv.2 = Some user_id)
               (txn db)).

(** The character [c] does not occur in [s]. *)
Fixpoint free_of (c : Ascii.ascii) (s : string) : Prop :=
  match s with
  | EmptyString => True
  | String a s' => a <> c /\ free_of c s'
  end.

(** Concrete inputs for the properties of the remaining methods. *)
Module Examples.

Definition app_storage : StorageOps.AppStorageService :=
  StorageOps.init (Some StorageOps.dict_store).

Definition holiday : list Byte.byte := String.list_byte_of_string "JFIF".

(** The bucket after "beach.jpg" of user "42" was uploaded. *)
Definition bucket1 : AppStorage.Bucket :=
  (StorageOps.upload_file app_storage holiday "beach.jpg" (Some "42")
     Scenario.empty_bucket).2.

(** The database after region 1 of photo 1 was tagged with person 7. *)
Definition db2 : Db := (tag_face 1 7 Scenario.db1).2.

End Examples.

(* ===================================================================== *)
(** ** Basic facts about the session *)
(* ===================================================================== *)

Section Session.

Implicit Types (db : Db) (m : gmap Z PhotoPerson) (r : PhotoPerson).

Lemma keys_below_max m k :
  is_Some (m !! k) -> k <= map_fold (fun k _ acc => Z.max k acc) 0 m.
Proof.
  revert k.
  apply (map_fold_weak_ind
           (fun acc (m : gmap Z PhotoPerson) => forall k, is_Some (m !! k) -> k <= acc)).
  - intros k [r Hr]. by rewrite lookup_empty in Hr.
  - intros i r m' acc Hi IH k Hk.
    destruct (decide (i = k)) as [->|Hne].
    + lia.
    + rewrite lookup_insert_ne in Hk by done. specialize (IH k Hk). lia.
Qed.

Lemma next_id_fresh m : m !! next_id m = None.
Proof.
  destruct (m !! next_id m) as [r|] eqn:E; [|done].
  assert (is_Some (m !! next_id m)) as H by eauto.
  apply keys_below_max in H. unfold next_id in H. lia.
Qed.

Lemma insert_row_subseteq m r : m ⊆ insert_row m r.
Proof. apply insert_subseteq, next_id_fresh. Qed.

Lemma foldl_insert_row_subseteq l m : m ⊆ foldl insert_row m l.
Proof.
  revert m. induction l as [|r l IH]; intros m; simpl; [done|].
  etrans; [apply insert_row_subseteq | apply IH].
Qed.

(** Every row of a flushed table is an old row or one of the new objects. *)
Lemma foldl_insert_row_inv l m k r :
  foldl insert_row m l !! k = Some r -> m !! k = Some r \/ r ∈ l.
Proof.
  revert m. induction l as [|r' l IH]; intros m H; simpl in *; [by left|].
  apply IH in H as [H|H]; [|right; by constructor].
  unfold insert_row in H.
  destruct (decide (next_id m = k)) as [<-|Hne].
  - rewrite lookup_insert_eq in H. injection H as ->. right. constructor.
  - rewrite lookup_insert_ne in H by done. by left.
Qed.

Lemma flushed_clean db : clean db -> flushed db = committed db.
Proof.
  intros (Ht & Hn & Hd). unfold flushed, session_view.
  rewrite Hn, Hd, Ht. simpl. by rewrite (left_id_L ∅ (∪)).
Qed.

Lemma query_spec {A} op (read : Db -> A) db :
  query op read db =
    match head (faults db) with
    | Some (Some msg) => (Throws msg, record_call op db)
    | _ => (Returns (read (autoflushed (record_call op db))),
            autoflushed (record_call op db))
    end.
Proof.
  unfold query, bind, db_call, do_autoflush.
  by destruct (head (faults db)) as [[?|]|].
Qed.

Lemma committed_autoflushed db : committed (autoflushed db) = committed db.
Proof. unfold autoflushed. by destruct (autoflush db). Qed.

Lemma trace_autoflushed db : trace (autoflushed db) = trace db.
Proof. unfold autoflushed. by destruct (autoflush db). Qed.

Lemma faults_autoflushed db : faults (autoflushed db) = faults db.
Proof. unfold autoflushed. by destruct (autoflush db). Qed.

Lemma session_view_subseteq_flushed db : session_view db ⊆ flushed db.
Proof. apply foldl_insert_row_subseteq. Qed.

Lemma flushed_flush db : flushed (flush db) = flushed db.
Proof.
  unfold flushed at 1, session_view. simpl. by rewrite (left_id_L ∅ (∪)).
Qed.

Lemma flushed_autoflushed db : flushed (autoflushed db) = flushed db.
Proof. unfold autoflushed. destruct (autoflush db); [apply flushed_flush | done]. Qed.

Lemma session_view_autoflushed db :
  session_view db ⊆ session_view (autoflushed db) /\
  session_view (autoflushed db) ⊆ flushed db.
Proof.
  unfold autoflushed. destruct (autoflush db).
  - unfold session_view at 2 3. simpl. rewrite (left_id_L ∅ (∪)).
    split; [apply session_view_subseteq_flushed | done].
  - split; [done | apply session_view_subseteq_flushed].
Qed.

Lemma session_view_query op db :
  session_view db ⊆ session_view (autoflushed (record_call op db)).
Proof. apply (proj1 (session_view_autoflushed (record_call op db))). Qed.

Lemma autoflushed_clean db : clean db -> autoflushed db = db.
Proof.
  intros Hc. unfold autoflushed. destruct (autoflush db) eqn:Ha; [|done].
  unfold flush. rewrite (flushed_clean _ Hc).
  destruct Hc as (Ht & Hn & Hd). destruct db; simpl in *. by subst.
Qed.

Lemma clean_record_call op db : clean db -> clean (record_call op db).
Proof. by intros (? & ? & ?). Qed.

End Session.

(* ===================================================================== *)
(** ** Tagging *)
(* ===================================================================== *)

Section Tagging.

Implicit Types (db : Db) (r : PhotoPerson).

Lemma session_view_mark_dirty id r db :
  session_view (mark_dirty id r db) = <[id := r]> (session_view db).
Proof. unfold session_view. simpl. by rewrite insert_union_l. Qed.

Lemma setattr_found id f db r :
  session_view db !! id = Some r ->
  setattr id f db = (Returns tt, mark_dirty id (f r) db).
Proof. intros H. unfold setattr. by rewrite H. Qed.

(** The state in which [tag_face] reaches [db.session.commit()]. *)
Lemma tag_face_body_found photo_person_id person_id db r :
  (forall msg, head (faults db) <> Some (Some msg)) ->
  session_view (autoflushed (record_call (OpRegionGet photo_person_id) db))
    !! photo_person_id = Some r ->
  tag_face_body photo_person_id person_id db =
    (session_commit >> ret true)
      (mark_dirty photo_person_id (set_verified true (set_person_id (Some person_id) r))
         (mark_dirty photo_person_id (set_person_id (Some person_id) r)
            (autoflushed (record_call (OpRegionGet photo_person_id) db)))).
Proof.
  intros Hf Hr. unfold tag_face_body, PhotoPerson_query_get.
  unfold bind at 1. rewrite query_spec.
  destruct (head (faults db)) as [[msg|]|] eqn:E; [by destruct (Hf msg)| |];
    rewrite Hr; unfold bind at 1; rewrite (setattr_found _ _ _ _ Hr);
    unfold bind at 1;
    erewrite setattr_found; try done;
    rewrite session_view_mark_dirty; apply lookup_insert_eq.
Qed.

Lemma session_commit_spec db :
  session_commit db =
    match head (faults db) with
    | Some (Some msg) => (Throws msg, record_call OpCommit db)
    | _ => (Returns tt,
            mkDb (photos db) (people db) (flushed db) (flushed db) [] ∅
                 (autoflush db) (tail (faults db)) (trace db ++ [OpCommit]))
    end.
Proof.
  unfold session_commit, bind, db_call.
  by destruct (head (faults db)) as [[?|]|].
Qed.

End Tagging.

(* ===================================================================== *)
(** ** Recording detections *)
(* ===================================================================== *)

Section Processing.

Implicit Types (db : Db) (r : PhotoPerson).

Lemma stable_ret {A} (a : A) : stable (ret a).
Proof. done. Qed.

Lemma stable_bind {A B} (m : M A) (k : A -> M B) :
  stable m -> (forall a, stable (k a)) -> stable (bind m k).
Proof.
  intros Hm Hk db. unfold bind. specialize (Hm db).
  destruct (m db) as [[a|e] db1]; simpl in *; [|done].
  by rewrite Hk.
Qed.

Lemma stable_query {A} op (read : Db -> A) : stable (query op read).
Proof.
  intros db. rewrite query_spec.
  destruct (head (faults db)) as [[?|]|]; simpl; try done;
    by rewrite committed_autoflushed.
Qed.

Lemma stable_session_add r : stable (session_add r).
Proof. done. Qed.

Lemma stable_store_face photo face : stable (store_face photo face).
Proof.
  apply stable_bind; [apply stable_query|].
  intros [?|]; [apply stable_ret | apply stable_session_add].
Qed.

Lemma stable_for_each {A} (l : list A) (body : A -> M unit) :
  (forall a, stable (body a)) -> stable (for_each l body).
Proof.
  intros Hb. induction l as [|a l IH]; simpl; [apply stable_ret|].
  apply stable_bind; [apply Hb | by intros _].
Qed.

Lemma stable_then_throw {A} (m : M A) : stable m -> stable_on_throw m.
Proof. intros H db e _. apply H. Qed.

Lemma stable_on_throw_bind {A B} (m : M A) (k : A -> M B) :
  stable m -> (forall a, stable_on_throw (k a)) -> stable_on_throw (bind m k).
Proof.
  intros Hm Hk db e. unfold bind. specialize (Hm db).
  destruct (m db) as [[a|e'] db1] eqn:E; simpl in *; [|done].
  intros H. rewrite (Hk a db1 e H). done.
Qed.

Lemma stable_on_throw_commit_then {A} (a : A) :
  stable_on_throw (session_commit >> ret a).
Proof.
  intros db e. unfold bind. rewrite session_commit_spec.
  by destruct (head (faults db)) as [[?|]|].
Qed.

Lemma process_photo_body_throw self fs photo :
  stable_on_throw (process_photo_body self fs photo).
Proof.
  unfold process_photo_body.
  apply stable_on_throw_bind; [apply stable_query|].
  intros [p|]; [|apply stable_then_throw, stable_ret].
  destruct (negb _); [apply stable_then_throw, stable_ret|].
  destruct (detect_faces_in_photo _ _) as [|f fl];
    [apply stable_then_throw, stable_ret|].
  apply stable_on_throw_bind; [|intros _; apply stable_on_throw_commit_then].
  apply stable_for_each. intros a. apply stable_store_face.
Qed.

Lemma tag_face_body_throw id person : stable_on_throw (tag_face_body id person).
Proof.
  unfold tag_face_body.
  apply stable_on_throw_bind; [apply stable_query|].
  intros [p|]; [|apply stable_then_throw, stable_ret].
  apply stable_on_throw_bind.
  { intros db. unfold setattr. simpl. by destruct (_ !! _). }
  intros _. apply stable_on_throw_bind.
  { intros db. unfold setattr. simpl. by destruct (_ !! _). }
  intros _. apply stable_on_throw_commit_then.
Qed.

Lemma keeps_ret {A} I (a : A) : keeps I (ret a).
Proof. by intros db. Qed.

Lemma keeps_bind {A B} I (m : M A) (k : A -> M B) :
  keeps I m -> (forall a, keeps I (k a)) -> keeps I (bind m k).
Proof.
  intros Hm Hk db HI. unfold bind. specialize (Hm db HI).
  destruct (m db) as [[a|e] db1]; simpl in *; [|done].
  by apply Hk.
Qed.

Lemma keeps_for_each {A} I (l : list A) (body : A -> M unit) :
  (forall a, keeps I (body a)) -> keeps I (for_each l body).
Proof.
  intros Hb. induction l as [|a l IH]; simpl; [apply keeps_ret|].
  apply keeps_bind; [apply Hb | by intros _].
Qed.

Lemma flushed_ok db : store_ok db -> map_Forall (fun _ r => region_ok r) (flushed db).
Proof.
  intros (Hc & Ht & Hn & Hd) k r Hk.
  apply foldl_insert_row_inv in Hk as [Hk|Hk].
  - unfold session_view in Hk. apply lookup_union_Some_raw in Hk as [Hk|[_ Hk]].
    + by apply (Hd k).
    + by apply (Ht k).
  - rewrite Forall_forall in Hn. by apply Hn.
Qed.

Lemma store_ok_autoflushed db : store_ok db -> store_ok (autoflushed db).
Proof.
  intros H. unfold autoflushed. destruct (autoflush db); [|done].
  pose proof (flushed_ok db H) as Hf. destruct H as (Hc & Ht & Hn & Hd).
  unfold store_ok. simpl.
  split_and!; [done | done | constructor | apply map_Forall_empty].
Qed.

Lemma store_ok_rollback db : store_ok db -> store_ok (session_rollback db).
Proof.
  intros (Hc & Ht & Hn & Hd).
  unfold store_ok. simpl.
  split_and!; [done | done | constructor | apply map_Forall_empty].
Qed.

Lemma keeps_ok_query {A} op (read : Db -> A) : keeps store_ok (query op read).
Proof.
  intros db H. rewrite query_spec.
  destruct (head (faults db)) as [[?|]|]; simpl; try done;
    by apply store_ok_autoflushed.
Qed.

Lemma keeps_ok_commit : keeps store_ok session_commit.
Proof.
  intros db H. rewrite session_commit_spec.
  pose proof (flushed_ok db H) as Hf.
  destruct (head (faults db)) as [[?|]|]; simpl; try done;
    unfold store_ok; simpl;
    (split_and!; [done | done | constructor | apply map_Forall_empty]).
Qed.

Lemma keeps_ok_store_face photo face : keeps store_ok (store_face photo face).
Proof.
  apply keeps_bind; [apply keeps_ok_query|].
  intros [?|]; [apply keeps_ret|].
  intros db (Hc & Ht & Hn & Hd). unfold store_ok. simpl.
  split_and!; try done.
  apply Forall_app. split; [done|]. by repeat constructor.
Qed.

Lemma keeps_ok_process_body self fs photo :
  keeps store_ok (process_photo_body self fs photo).
Proof.
  unfold process_photo_body.
  apply keeps_bind; [apply keeps_ok_query|].
  intros [p|]; [|apply keeps_ret].
  destruct (negb _); [apply keeps_ret|].
  destruct (detect_faces_in_photo _ _) as [|f fl]; [apply keeps_ret|].
  apply keeps_bind; [apply keeps_for_each, keeps_ok_store_face|].
  intros _. apply keeps_bind; [apply keeps_ok_commit | intros _; apply keeps_ret].
Qed.

Lemma tagged_region_ok r person :
  region_ok (set_verified true (set_person_id (Some person) r)).
Proof. by split. Qed.

(** The two attribute assignments of [tag_face], taken together. *)
Lemma keeps_ok_assignments id person :
  keeps store_ok
    (setattr id (set_person_id (Some person)) >> setattr id (set_verified true)).
Proof.
  intros db H. unfold bind, setattr. simpl.
  destruct (session_view db !! id) as [r|] eqn:E; [|by rewrite E].
  rewrite session_view_mark_dirty, lookup_insert_eq.
  destruct H as (Hc & Ht & Hn & Hd). unfold store_ok. simpl.
  split_and!; try done.
  rewrite insert_insert_eq. apply map_Forall_insert_2; [|done].
  apply tagged_region_ok.
Qed.

Lemma keeps_ok_tag_body id person : keeps store_ok (tag_face_body id person).
Proof.
  unfold tag_face_body.
  apply keeps_bind; [apply keeps_ok_query|].
  intros [p|]; [|apply keeps_ret].
  intros db H.
  pose proof (keeps_ok_assignments id person db H) as H2.
  unfold bind in *. simpl in *.
  set (db2 := match session_view
                       match session_view db !! id with
                       | Some r => mark_dirty id (set_person_id (Some person) r) db
                       | None => db
                       end !! id with
              | Some r => _ | None => _ end) in *.
  pose proof (keeps_ok_commit db2 H2) as H3.
  by destruct (session_commit db2) as [[[]|e] db3].
Qed.

Lemma keeps_try_except (I : Db -> Prop) (m : M bool) :
  keeps I m -> (forall db, I db -> I (session_rollback db)) ->
  forall db, I db -> I (try_except m (fun _ db => (false, session_rollback db)) db).2.
Proof.
  intros Hm Hr db H. unfold try_except. specialize (Hm db H).
  destruct (m db) as [[b|e] db1]; simpl in *; [done | by apply Hr].
Qed.

Lemma adds_app t1 t2 : adds (t1 ++ t2) = (adds t1 + adds t2)%nat.
Proof. unfold adds. by rewrite filter_app, length_app. Qed.

Lemma no_fault_head (fs : list (option string)) :
  first_fault 1 fs = None -> forall msg, head fs <> Some (Some msg).
Proof. destruct fs as [|[?|] ?]; simpl; congruence. Qed.

(** The run of [process_photo_for_faces] on a photo in which detection
    finds nothing: one photo lookup, then success. *)
Lemma process_photo_no_faces self fs photo_id db photo :
  _available self = true ->
  photos db !! photo_id = Some photo ->
  first_fault 1 (faults db) = None ->
  os_path_exists fs (file_path photo) = true ->
  detect_faces_in_photo self (file_path photo) = [] ->
  process_photo_for_faces self fs photo_id db =
    (true, autoflushed (record_call (OpPhotoGet photo_id) db)).
Proof.
  intros Hav Hp Hf0 Hex Hd. pose proof (no_fault_head _ Hf0) as Hf.
  unfold process_photo_for_faces, try_except, process_photo_body, Photo_query_get.
  rewrite Hav. simpl. unfold bind. rewrite query_spec.
  assert (photos (autoflushed (record_call (OpPhotoGet photo_id) db)) !! photo_id
          = Some photo) as Hp'.
  { unfold autoflushed. by destruct (autoflush _). }
  destruct (head (faults db)) as [[msg|]|]; [by destruct (Hf msg)| |];
    rewrite Hp', Hex, Hd; done.
Qed.

Lemma detect_unreadable self photo_path :
  unreadable self photo_path -> detect_faces_in_photo self photo_path = [].
Proof.
  intros (cv2 & Hcv & Him). unfold detect_faces_in_photo, detect_faces_body.
  destruct (negb _); [done|]. rewrite Hcv.
  destruct Him as [-> | [e ->]]; done.
Qed.

(** *** The duplicate check *)

Lemma find_region_Some (m : gmap Z PhotoPerson) photo face r :
  head (filter (same_region photo (Face.x face) (Face.y face)
                  (Face.width face) (Face.height face))
               (map_to_list m).*2) = Some r ->
  has_region m photo face.
Proof.
  intros H. apply head_Some_elem_of, list_elem_of_filter in H as [HP Hin].
  apply list_elem_of_fmap in Hin as ([k r'] & -> & Hin).
  apply elem_of_map_to_list in Hin. exists k, r'. done.
Qed.

Lemma find_region_is_Some (m : gmap Z PhotoPerson) photo face :
  has_region m photo face ->
  is_Some (head (filter (same_region photo (Face.x face) (Face.y face)
                           (Face.width face) (Face.height face))
                        (map_to_list m).*2)).
Proof.
  intros (k & r & Hk & HP).
  assert (r ∈ filter (same_region photo (Face.x face) (Face.y face)
                        (Face.width face) (Face.height face))
                     (map_to_list m).*2) as Hin.
  { apply list_elem_of_filter. split; [done|].
    apply list_elem_of_fmap. exists (k, r). split; [done|].
    by apply elem_of_map_to_list. }
  destruct (filter _ _) as [|r0 l]; [by apply elem_of_nil in Hin | by eexists].
Qed.

Lemma has_region_weaken (m1 m2 : gmap Z PhotoPerson) photo face :
  m1 ⊆ m2 -> has_region m1 photo face -> has_region m2 photo face.
Proof.
  intros Hsub (k & r & Hk & HP). exists k, r. split; [|done].
  by eapply lookup_weaken.
Qed.

Lemma flushed_session_add r db :
  flushed (session_add r db).2 = insert_row (flushed db) r.
Proof. unfold flushed, session_view. simpl. by rewrite foldl_app. Qed.

Lemma txn_subseteq_flushed db :
  session_dirty db = ∅ -> txn db ⊆ flushed db.
Proof.
  intros Hd. etrans; [|apply session_view_subseteq_flushed].
  unfold session_view. by rewrite Hd, (left_id_L ∅ (∪)).
Qed.

Lemma dirty_autoflushed db :
  session_dirty db = ∅ -> session_dirty (autoflushed db) = ∅.
Proof. intros H. unfold autoflushed. by destruct (autoflush db). Qed.

(** The region that [process_photo_for_faces] creates for a face. *)
Lemma store_face_spec photo face db :
  let op := OpRegionFind photo (Face.x face) (Face.y face)
              (Face.width face) (Face.height face) in
  let db1 := autoflushed (record_call op db) in
  store_face photo face db =
    match head (faults db) with
    | Some (Some msg) => (Throws msg, record_call op db)
    | _ =>
        match head (filter (same_region photo (Face.x face) (Face.y face)
                              (Face.width face) (Face.height face))
                           (map_to_list (txn db1)).*2) with
        | Some _ => (Returns tt, db1)
        | None =>
            session_add (mkPhotoPerson photo None (Face.x face) (Face.y face)
                           (Face.width face) (Face.height face)
                           (Face.confidence face) false) db1
        end
    end.
Proof.
  intros op db1. unfold store_face, PhotoPerson_filter_by_first, bind.
  rewrite query_spec. fold op. fold db1.
  destruct (head (faults db)) as [[msg|]|]; [done| |];
    by destruct (head (filter _ _)).
Qed.

(** One iteration of the loop, from a session without unflushed
    modifications: the rows seen after a flush only grow, and when the
    iteration does not raise the face is among them. *)
Lemma store_face_records photo face db :
  session_dirty db = ∅ ->
  session_dirty (store_face photo face db).2 = ∅ /\
  flushed db ⊆ flushed (store_face photo face db).2 /\
  ((store_face photo face db).1 = Returns tt ->
   has_region (flushed (store_face photo face db).2) photo face).
Proof.
  intros Hd. rewrite store_face_spec.
  set (db1 := autoflushed (record_call _ db)).
  assert (session_dirty db1 = ∅) as Hd1 by by apply dirty_autoflushed.
  assert (flushed db1 = flushed db) as Hf1.
  { unfold db1. by rewrite flushed_autoflushed. }
  assert (forall r,
    head (filter (same_region photo (Face.x face) (Face.y face)
                    (Face.width face) (Face.height face))
                 (map_to_list (txn db1)).*2) = Some r ->
    session_dirty db1 = ∅ /\ flushed db ⊆ flushed db1 /\
    (Returns tt = Returns tt :> outcome unit -> has_region (flushed db1) photo face))
    as Hfound.
  { intros r E. split_and!; [done | by rewrite Hf1 |]. intros _.
    eapply has_region_weaken;
      [by apply txn_subseteq_flushed | by eapply find_region_Some]. }
  assert (forall r, same_region photo (Face.x face) (Face.y face)
                      (Face.width face) (Face.height face) r ->
    session_dirty (session_add r db1).2 = ∅ /\
    flushed db ⊆ flushed (session_add r db1).2 /\
    ((session_add r db1).1 = Returns tt ->
     has_region (flushed (session_add r db1).2) photo face)) as Hnew.
  { intros r Hr. rewrite flushed_session_add, Hf1.
    split_and!; [done | apply insert_row_subseteq |]. intros _.
    eexists _, _. split; [apply lookup_insert_eq | done]. }
  destruct (head (faults db)) as [[msg|]|]; [done| |].
  all: destruct (head (filter _ _)) as [r|] eqn:E;
    [by apply (Hfound r) | by apply Hnew].
Qed.

Lemma for_each_records photo faces db :
  session_dirty db = ∅ ->
  session_dirty (for_each faces (store_face photo) db).2 = ∅ /\
  flushed db ⊆ flushed (for_each faces (store_face photo) db).2 /\
  ((for_each faces (store_face photo) db).1 = Returns tt ->
   forall face, face ∈ faces ->
     has_region (flushed (for_each faces (store_face photo) db).2) photo face).
Proof.
  revert db. induction faces as [|f faces IH]; intros db Hd; simpl.
  - split_and!; [done | done |]. intros _ face Hin. by apply elem_of_nil in Hin.
  - destruct (store_face_records photo f db Hd) as (Hd1 & Hsub1 & Hin1).
    unfold bind.
    destruct (store_face photo f db) as [[[]|e] db1]; simpl in *; [|done].
    destruct (IH db1 Hd1) as (Hd2 & Hsub2 & Hin2).
    split_and!; [done | by etrans |].
    intros Hret face Hin. apply elem_of_cons in Hin as [->|Hin].
    + eapply has_region_weaken; [exact Hsub2 | by apply Hin1].
    + by apply Hin2.
Qed.

(** The loop run again on a clean session that already stores every face:
    nothing is added. *)
Lemma for_each_again photo faces db :
  clean db ->
  (forall face, face ∈ faces -> has_region (committed db) photo face) ->
  clean (for_each faces (store_face photo) db).2 /\
  committed (for_each faces (store_face photo) db).2 = committed db /\
  adds (trace (for_each faces (store_face photo) db).2) = adds (trace db).
Proof.
  revert db. induction faces as [|f faces IH]; intros db Hc Hall; simpl; [done|].
  unfold bind at 1 2 3. rewrite store_face_spec.
  rewrite (autoflushed_clean _ (clean_record_call _ _ Hc)).
  assert (has_region (txn db) photo f) as Hf.
  { destruct Hc as (-> & _). apply Hall. constructor. }
  apply find_region_is_Some in Hf as [r Hf].
  change (txn (record_call _ db)) with (txn db). rewrite Hf.
  set (db1 := record_call _ db).
  assert (clean db1) as Hc1 by by apply clean_record_call.
  assert (adds (trace db1) = adds (trace db)) as Ha1.
  { unfold db1. simpl. rewrite adds_app. unfold adds at 2. simpl. lia. }
  destruct (head (faults db)) as [[msg|]|]; [done| |].
  all: destruct (IH db1 Hc1) as (H1 & H2 & H3);
    [intros face Hin; apply Hall; by constructor|].
  all: split_and!; [done | done | by rewrite H3].
Qed.

Lemma photos_autoflushed db : photos (autoflushed db) = photos db.
Proof. unfold autoflushed. by destruct (autoflush db). Qed.

(** [process_photo_for_faces] with the engine available, up to the loop. *)
Lemma process_photo_spec self fs photo_id db :
  _available self = true ->
  let db1 := autoflushed (record_call (OpPhotoGet photo_id) db) in
  process_photo_for_faces self fs photo_id db =
    match head (faults db) with
    | Some (Some msg) =>
        (false, session_rollback (record_call (OpPhotoGet photo_id) db))
    | _ =>
        match photos db !! photo_id with
        | None => (false, db1)
        | Some photo =>
            if os_path_exists fs (file_path photo) then
              match detect_faces_in_photo self (file_path photo) with
              | [] => (true, db1)
              | faces =>
                  try_except
                    (for_each faces (store_face photo_id) >> session_commit >> ret true)
                    (fun _ db => (false, session_rollback db)) db1
              end
            else (false, db1)
        end
    end.
Proof.
  intros Hav db1.
  unfold process_photo_for_faces, process_photo_body, Photo_query_get.
  rewrite Hav. simpl. unfold try_except at 1. unfold bind at 1.
  rewrite query_spec. fold db1.
  assert (photos db1 = photos db) as ->.
  { unfold db1. by rewrite photos_autoflushed. }
  destruct (head (faults db)) as [[msg|]|]; [done| |].
  all: destruct (photos db !! photo_id) as [photo|]; [|done].
  all: destruct (os_path_exists fs (file_path photo)); [|done]; simpl.
  all: by destruct (detect_faces_in_photo self (file_path photo)).
Qed.

(** The batch after the photo was found: loop, commit, [return True]. *)
Lemma batch_first photo faces db :
  session_dirty db = ∅ ->
  let res := try_except
               (for_each faces (store_face photo) >> session_commit >> ret true)
               (fun _ db => (false, session_rollback db)) db in
  photos res.2 = photos db /\
  (res.1 = true ->
   clean res.2 /\
   forall face, face ∈ faces -> has_region (committed res.2) photo face).
Proof.
  intros Hd. simpl. unfold try_except, bind.
  destruct (for_each_records photo faces db Hd) as (_ & _ & Hin).
  assert (photos (for_each faces (store_face photo) db).2 = photos db) as Hph.
  { clear. revert db. induction faces as [|f faces IH]; intros db; simpl; [done|].
    unfold bind. rewrite store_face_spec.
    destruct (head (faults db)) as [[msg|]|]; [done| |].
    all: destruct (head (filter _ _)); simpl; rewrite IH; simpl;
      by rewrite photos_autoflushed. }
  destruct (for_each faces (store_face photo) db) as [[[]|e] db1]; simpl in *;
    [|done].
  rewrite session_commit_spec.
  destruct (head (faults db1)) as [[msg|]|]; simpl; [done| |].
  all: split; [done|]; intros _; split; [done|]; by apply Hin.
Qed.

Lemma batch_again photo faces db :
  clean db ->
  (forall face, face ∈ faces -> has_region (committed db) photo face) ->
  let res := try_except
               (for_each faces (store_face photo) >> session_commit >> ret true)
               (fun _ db => (false, session_rollback db)) db in
  committed res.2 = committed db /\
  adds (trace res.2) = adds (trace db).
Proof.
  intros Hc Hall. simpl. unfold try_except, bind.
  destruct (for_each_again photo faces db Hc Hall) as (Hc1 & Hcm & Had).
  assert (forall s, adds (trace (session_rollback s)) = adds (trace s)) as Hrb.
  { intros s. simpl. rewrite adds_app. unfold adds at 2. simpl. lia. }
  destruct (for_each faces (store_face photo) db) as [[[]|e] db1]; simpl in *.
  2:{ by rewrite adds_app, Had; unfold adds at 2; simpl; split; [|lia]. }
  rewrite session_commit_spec.
  destruct (head (faults db1)) as [[msg|]|]; simpl.
  1:{ split; [done|]. rewrite !adds_app, Had. unfold adds at 2 3. simpl. lia. }
  all: rewrite (flushed_clean _ Hc1); split; [done|].
  all: rewrite adds_app, Had; unfold adds at 2; simpl; lia.
Qed.

(** After a successful run the session is clean and every detected face is
    stored. *)
Lemma process_photo_first self fs photo_id db :
  clean db ->
  (process_photo_for_faces self fs photo_id db).1 = true ->
  clean (process_photo_for_faces self fs photo_id db).2 /\
  faces_stored self photo_id (process_photo_for_faces self fs photo_id db).2.
Proof.
  intros Hc. destruct (_available self) eqn:Hav.
  2:{ unfold process_photo_for_faces. by rewrite Hav. }
  rewrite (process_photo_spec _ _ _ _ Hav). unfold faces_stored.
  rewrite (autoflushed_clean _ (clean_record_call _ _ Hc)).
  set (db1 := record_call _ db).
  assert (clean db1) as Hc1 by by apply clean_record_call.
  destruct (head (faults db)) as [[msg|]|]; [done| |].
  all: destruct (photos db !! photo_id) as [photo|] eqn:Hp; [|done].
  all: destruct (os_path_exists fs (file_path photo)); [|done].
  all: destruct (detect_faces_in_photo self (file_path photo)) as [|f fl] eqn:Hd.
  all: try (intros _; split; [done|]; simpl; intros photo' face Hp';
            rewrite Hp in Hp'; injection Hp' as <-; rewrite Hd;
            intros Hin; by apply elem_of_nil in Hin).
  all: destruct (batch_first photo_id (f :: fl) db1) as (Hph & Hres);
    [by destruct Hc1 as (_ & _ & ?)|].
  all: intros Hok; destruct (Hres Hok) as (Hclean & Hall); split; [done|].
  all: intros photo' face Hp'; rewrite Hph in Hp'; simpl in Hp';
    rewrite Hp in Hp'; injection Hp' as <-; rewrite Hd; apply Hall.
Qed.

(** A run on a clean session that stores every detected face inserts
    nothing. *)
Lemma process_photo_again self fs photo_id db :
  clean db ->
  faces_stored self photo_id db ->
  committed (process_photo_for_faces self fs photo_id db).2 = committed db /\
  adds (trace (process_photo_for_faces self fs photo_id db).2) = adds (trace db).
Proof.
  intros Hc Hall. destruct (_available self) eqn:Hav.
  2:{ unfold process_photo_for_faces. by rewrite Hav. }
  rewrite (process_photo_spec _ _ _ _ Hav).
  rewrite (autoflushed_clean _ (clean_record_call _ _ Hc)).
  set (db1 := record_call _ db).
  assert (clean db1) as Hc1 by by apply clean_record_call.
  assert (adds (trace db1) = adds (trace db)) as Ha1.
  { unfold db1. simpl. rewrite adds_app. unfold adds at 2. simpl. lia. }
  destruct (head (faults db)) as [[msg|]|].
  { simpl. split; [done|]. rewrite !adds_app. unfold adds at 2 3. simpl. lia. }
  all: destruct (photos db !! photo_id) as [photo|] eqn:Hp; [|done].
  all: destruct (os_path_exists fs (file_path photo)); [|done].
  all: destruct (detect_faces_in_photo self (file_path photo)) as [|f fl] eqn:Hd;
    [done|].
  all: destruct (batch_again photo_id (f :: fl) db1 Hc1) as (H1 & H2);
    [intros face Hin; apply (Hall photo face Hp); by rewrite Hd|].
  all: split; [done | by rewrite H2].
Qed.

(** *** Each rectangle is added at most once (autoflush on) *)

Lemma adds_of_app photo x y w h t1 t2 :
  adds_of photo x y w h (t1 ++ t2) =
    (adds_of photo x y w h t1 + adds_of photo x y w h t2)%nat.
Proof. unfold adds_of. by rewrite filter_app, length_app. Qed.

Lemma adds_of_other photo x y w h op t :
  is_add_of photo x y w h op = false ->
  adds_of photo x y w h (t ++ [op]) = adds_of photo x y w h t.
Proof.
  intros H. rewrite adds_of_app. unfold adds_of at 2.
  rewrite filter_cons_False by congruence. simpl. lia.
Qed.

Lemma adds_of_this photo x y w h op t :
  is_add_of photo x y w h op = true ->
  adds_of photo x y w h (t ++ [op]) = S (adds_of photo x y w h t).
Proof.
  intros H. rewrite adds_of_app. unfold adds_of at 2.
  rewrite filter_cons_True by done. simpl. lia.
Qed.

Lemma added_once_record_call photo t0 op db :
  is_add op = false ->
  added_once photo t0 db -> added_once photo t0 (record_call op db).
Proof.
  intros Hop (Ha & Hd & H). split_and!; [done | done |].
  intros x y w h. simpl. rewrite adds_of_other; [apply H|].
  by destruct op.
Qed.

Lemma added_once_flush photo t0 db :
  added_once photo t0 db -> added_once photo t0 (flush db).
Proof.
  intros (Ha & Hd & H). split_and!; [done | done |].
  intros x y w h. rewrite flushed_flush. apply H.
Qed.

Lemma added_once_add photo t0 face db :
  added_once photo t0 db ->
  txn db = flushed db ->
  head (filter (same_region photo (Face.x face) (Face.y face)
                  (Face.width face) (Face.height face))
               (map_to_list (txn db)).*2) = None ->
  added_once photo t0
    (session_add (mkPhotoPerson photo None (Face.x face) (Face.y face)
                    (Face.width face) (Face.height face)
                    (Face.confidence face) false) db).2.
Proof.
  intros (Ha & Hd & H) Htxn E. split_and!; [done | done |].
  intros x y w h. destruct (H x y w h) as [Hle Hvis].
  rewrite flushed_session_add.
  change (trace (session_add ?r db).2) with (trace db ++ [OpAdd r]).
  set (row := mkPhotoPerson _ _ _ _ _ _ _ _).
  destruct (decide (same_region photo x y w h row)) as [Hsame|Hne].
  - rewrite adds_of_this by (simpl; by apply bool_decide_eq_true_2).
    split; [|intros _; exists (next_id (flushed db)), row;
                split; [apply lookup_insert_eq | done]].
    destruct (decide (adds_of photo x y w h t0 < adds_of photo x y w h (trace db))%nat)
      as [Hlt|Hge]; [|lia].
    exfalso. apply Hvis in Hlt.
    destruct Hsame as (_ & Hx & Hy & Hw & Hh). simpl in Hx, Hy, Hw, Hh. subst x y w h.
    rewrite <- Htxn in Hlt.
    apply (find_region_is_Some (txn db) photo face) in Hlt as [r' Hr'].
    congruence.
  - rewrite adds_of_other by (simpl; by apply bool_decide_eq_false_2).
    split; [done|]. intros Hlt. apply Hvis in Hlt.
    destruct Hlt as (k & r' & Hk & HP). exists k, r'. split; [|done].
    eapply lookup_weaken; [exact Hk | apply insert_row_subseteq].
Qed.

Lemma added_once_store_face photo t0 face db :
  added_once photo t0 db -> added_once photo t0 (store_face photo face db).2.
Proof.
  intros Hinv. rewrite store_face_spec.
  set (op := OpRegionFind _ _ _ _ _).
  assert (added_once photo t0 (record_call op db)) as Hrc
    by by apply added_once_record_call.
  assert (autoflushed (record_call op db) = flush (record_call op db)) as ->.
  { unfold autoflushed. destruct Hrc as (Ha & _). by rewrite Ha. }
  pose proof (added_once_flush _ _ _ Hrc) as Hfl.
  destruct (head (faults db)) as [[msg|]|]; [done| |].
  all: destruct (head (filter _ _)) as [r|] eqn:E; [done|].
  all: apply added_once_add; [done | | done].
  all: by rewrite flushed_flush.
Qed.

Lemma added_once_for_each photo t0 faces db :
  added_once photo t0 db ->
  added_once photo t0 (for_each faces (store_face photo) db).2.
Proof.
  revert db. induction faces as [|f faces IH]; intros db H; simpl; [done|].
  unfold bind. pose proof (added_once_store_face photo t0 f db H) as H1.
  destruct (store_face photo f db) as [[[]|e] db1]; simpl in *; [|done].
  by apply IH.
Qed.

(** With autoflush on, one run adds each rectangle at most once. *)
Lemma process_photo_adds_once self fs photo_id db x y w h :
  session_dirty db = ∅ ->
  autoflush db = true ->
  (adds_of photo_id x y w h (trace (process_photo_for_faces self fs photo_id db).2)
   <= S (adds_of photo_id x y w h (trace db)))%nat.
Proof.
  intros Hd Ha. destruct (_available self) eqn:Hav.
  2:{ unfold process_photo_for_faces. rewrite Hav. simpl. lia. }
  rewrite (process_photo_spec _ _ _ _ Hav).
  assert (added_once photo_id (trace db) db) as H0.
  { split_and!; [done | done |]. intros; split; lia. }
  assert (added_once photo_id (trace db)
            (autoflushed (record_call (OpPhotoGet photo_id) db))) as H1.
  { apply (added_once_record_call _ _ (OpPhotoGet photo_id)) in H0; [|done].
    unfold autoflushed. destruct (autoflush _); [by apply added_once_flush | done]. }
  set (db1 := autoflushed _) in *.
  assert (forall s, added_once photo_id (trace db) s ->
            (adds_of photo_id x y w h (trace s)
             <= S (adds_of photo_id x y w h (trace db)))%nat) as Hread.
  { intros s (_ & _ & H). apply H. }
  destruct (head (faults db)) as [[msg|]|].
  { simpl. rewrite !adds_of_other by done. lia. }
  all: destruct (photos db !! photo_id) as [photo|]; [|by apply Hread].
  all: destruct (os_path_exists fs (file_path photo)); [|by apply Hread].
  all: destruct (detect_faces_in_photo self (file_path photo)) as [|f fl];
    [by apply Hread|].
  all: unfold try_except, bind.
  all: pose proof (added_once_for_each photo_id (trace db) (f :: fl) db1 H1) as H2.
  all: destruct (for_each (f :: fl) (store_face photo_id) db1) as [[[]|e] db2];
    simpl in H2; simpl.
  all: try (rewrite adds_of_other by done; by apply Hread).
  all: rewrite session_commit_spec.
  all: destruct (head (faults db2)) as [[msg|]|]; simpl.
  all: rewrite ?adds_of_other by done; by apply Hread.
Qed.

End Processing.

(* ===================================================================== *)
(** ** Statistics *)
(* ===================================================================== *)

Section Statistics.

Lemma bind_query_fault {A B} op (read : Db -> A) (k : A -> M B) db msg fs :
  faults db = Some msg :: fs ->
  (bind (query op read) k db).1 = Throws msg.
Proof. intros H. unfold bind. rewrite query_spec, H. done. Qed.

Lemma bind_query_ok {A B} op (read : Db -> A) (k : A -> M B) db fs :
  faults db = None :: fs ->
  exists db', faults db' = fs /\
    bind (query op read) k db = k (read db') db'.
Proof.
  intros H. exists (autoflushed (record_call op db)). split.
  - rewrite faults_autoflushed. simpl. by rewrite H.
  - unfold bind. rewrite query_spec, H. done.
Qed.

Lemma first_fault_skip n (fs : list (option string)) :
  first_fault (S n) (None :: fs) = first_fault n fs.
Proof. done. Qed.

(** A database error in one of the five counting queries escapes the [try]
    block with its message. *)
Lemma stats_body_throws self user_id db e :
  first_fault 5 (faults db) = Some e ->
  (stats_body self user_id db).1 = Throws e.
Proof.
  unfold stats_body, query_count. intros H.
  repeat
    (let fs := fresh "fs" in
     let E := fresh "E" in
     let db' := fresh "db" in
     let Hf := fresh "Hf" in
     match goal with
     | H : first_fault (S _) (faults ?d) = Some _ |- _ =>
         destruct (faults d) as [|[?|] fs] eqn:E;
         [ done
         | injection H as ->; by eapply bind_query_fault
         | rewrite first_fault_skip in H;
           match goal with
           | |- (bind (query ?op ?read) ?k d).1 = _ =>
               destruct (bind_query_ok op read k d fs E) as (db' & Hf & ->);
               rewrite <- Hf in H; clear E
           end ]
     end).
  done.
Qed.

End Statistics.

(* ===================================================================== *)
(** ** Properties of the face detection service *)
(* ===================================================================== *)

(** C2.  When the capability probe reports the detection engine unavailable,
    [detect_faces_in_photo] returns the empty list for every path, and
    [process_photo_for_faces] returns false and leaves the whole session
    untouched: no statement is issued (the trace is the same), nothing is
    read from or written to the region store. *)
Theorem unavailable_engine_is_a_no_op
    (self : FaceDetectionService) (fs : gset string) (photo_path : string)
    (photo_id : Z) (db : Db) :
  is_available self = false ->
  detect_faces_in_photo self photo_path = [] /\
  process_photo_for_faces self fs photo_id db = (false, db).
Proof.
  unfold is_available, detect_faces_in_photo, process_photo_for_faces.
  intros ->. done.
Qed.

(** C5.  Tagging a region id that identifies no region (neither a row of the
    table nor an object pending in the session; for a clean session this is
    [committed db !! photo_person_id = None]) returns false and leaves the
    durable table unchanged, so no region's person or verified field
    changes. *)
Theorem tag_face_unknown_region (photo_person_id person_id : Z) (db : Db) :
  flushed db !! photo_person_id = None ->
  (tag_face photo_person_id person_id db).1 = false /\
  committed (tag_face photo_person_id person_id db).2 = committed db.
Proof.
  intros Hnone.
  unfold tag_face, try_except, tag_face_body, PhotoPerson_query_get.
  unfold bind. rewrite query_spec.
  assert (session_view (autoflushed (record_call (OpRegionGet photo_person_id) db))
            !! photo_person_id = None) as Hview.
  { eapply lookup_weaken_None; [|apply session_view_autoflushed]. done. }
  destruct (head (faults db)) as [[msg|]|]; simpl; try done;
    rewrite Hview; simpl; by rewrite committed_autoflushed.
Qed.

(** Tagging an existing region succeeds when the database raises no error
    during the lookup and the commit. *)
Lemma tag_face_succeeds (photo_person_id person_id : Z) (db : Db) (r : PhotoPerson) :
  session_view db !! photo_person_id = Some r ->
  first_fault 2 (faults db) = None ->
  (tag_face photo_person_id person_id db).1 = true.
Proof.
  intros Hr Hf.
  assert (forall msg, head (faults db) <> Some (Some msg)) as Hhead.
  { intros msg E. destruct (faults db) as [|[?|] ?]; simpl in *; congruence. }
  unfold tag_face, try_except.
  erewrite tag_face_body_found; [|done|].
  2:{ eapply lookup_weaken; [exact Hr|]. apply session_view_query. }
  unfold bind. rewrite session_commit_spec. simpl.
  rewrite faults_autoflushed. simpl.
  destruct (faults db) as [|[?|] [|[?|] ?]]; simpl in *; congruence.
Qed.

(** C4.  After a successful [tag_face] on an existing region [r] (the row
    the session shows under that id; for a clean session, the committed
    row), the stored region has [person_id = Some person_id] and
    [verified = true], whatever its person and verified fields were before,
    and its photo, rectangle and confidence are the ones it had. *)
Theorem tag_face_sets_person_and_verified
    (photo_person_id person_id : Z) (db : Db) (r : PhotoPerson) :
  session_view db !! photo_person_id = Some r ->
  (tag_face photo_person_id person_id db).1 = true ->
  committed (tag_face photo_person_id person_id db).2 !! photo_person_id =
    Some (mkPhotoPerson (photo_id r) (Some person_id) (face_x r) (face_y r)
            (face_width r) (face_height r) (confidence r) true).
Proof.
  intros Hr.
  destruct (head (faults db)) as [[msg|]|] eqn:Hhead.
  { unfold tag_face, try_except, tag_face_body, PhotoPerson_query_get.
    unfold bind. rewrite query_spec, Hhead. simpl. congruence. }
  all: unfold tag_face, try_except.
  all: erewrite tag_face_body_found;
    [| intros msg; rewrite Hhead; congruence
     | eapply lookup_weaken; [exact Hr | apply session_view_query] ].
  all: unfold bind; rewrite session_commit_spec.
  all: match goal with |- context [head (faults ?s)] =>
         destruct (head (faults s)) as [[msg|]|] end; simpl; try congruence.
  all: intros _; eapply lookup_weaken; [|apply session_view_subseteq_flushed].
  all: rewrite session_view_mark_dirty; apply lookup_insert_eq.
Qed.

(** C3.  When a database error escapes the [try] block of
    [process_photo_for_faces] (during the lookups, the insert batch or its
    commit) or of [tag_face] (during the lookup or the commit of the update),
    the operation returns false, the durable region table is the one from
    before the call, and the session is rolled back to it: none of the
    insertions or updates of the call remains. *)
Theorem persistence_failure_rolls_back (op : operation) (db : Db) (e : string) :
  raises op db e ->
  (run op db).1 = false /\
  committed (run op db).2 = committed db /\
  clean (run op db).2.
Proof.
  destruct op as [self fs photo | id person]; simpl.
  - intros [Hav Hthrow].
    pose proof (process_photo_body_throw self fs photo db e Hthrow) as Hc.
    unfold process_photo_for_faces, try_except. rewrite Hav. simpl.
    destruct (process_photo_body self fs photo db) as [[b|e'] db1]; simpl in *;
      [congruence|].
    repeat split; done.
  - intros Hthrow.
    pose proof (tag_face_body_throw id person db e Hthrow) as Hc.
    unfold tag_face, try_except.
    destruct (tag_face_body id person db) as [[b|e'] db1]; simpl in *;
      [congruence|].
    repeat split; done.
Qed.

(** C6.  The predicate "a region without a person is unverified and a region
    with a person is verified", taken over the durable table, the open
    transaction and the session's pending objects, is kept by every
    operation: detection only adds regions without a person and with
    [verified = false], and tagging sets the person and [verified = true]
    together. *)
Theorem operations_keep_store_ok (op : operation) (db : Db) :
  store_ok db -> store_ok (run op db).2.
Proof.
  intros H. destruct op as [self fs photo | id person]; simpl.
  - unfold process_photo_for_faces. destruct (negb _); [done|].
    apply keeps_try_except;
      [apply keeps_ok_process_body | apply store_ok_rollback | done].
  - unfold tag_face.
    apply keeps_try_except;
      [apply keeps_ok_tag_body | apply store_ok_rollback | done].
Qed.

(** C9.  For an existing photo whose file is on disk, when detection finds
    no face, [process_photo_for_faces] returns true and inserts nothing:
    the durable table is unchanged, the session holds no additional region,
    and [db.session.add] is not called.  (The engine is available and the
    photo lookup raises no database error.) *)
Theorem zero_faces_is_success
    (self : FaceDetectionService) (fs : gset string) (photo_id : Z) (db : Db)
    (photo : Photo) :
  is_available self = true ->
  photos db !! photo_id = Some photo ->
  first_fault 1 (faults db) = None ->
  os_path_exists fs (file_path photo) = true ->
  detect_faces_in_photo self (file_path photo) = [] ->
  (process_photo_for_faces self fs photo_id db).1 = true /\
  committed (process_photo_for_faces self fs photo_id db).2 = committed db /\
  flushed (process_photo_for_faces self fs photo_id db).2 = flushed db /\
  adds (trace (process_photo_for_faces self fs photo_id db).2) = adds (trace db).
Proof.
  intros Hav Hp Hf Hex Hd.
  rewrite (process_photo_no_faces _ _ _ _ _ Hav Hp Hf Hex Hd). simpl.
  rewrite committed_autoflushed, flushed_autoflushed, trace_autoflushed. simpl.
  rewrite adds_app. unfold adds at 2. simpl.
  split_and!; [done | done | done | lia].
Qed.

(** C7 (as amended).  For an existing photo whose file is on disk but cannot
    be decoded ([cv2.imread] returns [None] or raises),
    [detect_faces_in_photo] returns no face and [process_photo_for_faces]
    returns true without inserting anything; the decoding failure is not
    propagated.  (The engine is available and the photo lookup raises no
    database error.) *)
Theorem unreadable_image_is_zero_faces
    (self : FaceDetectionService) (fs : gset string) (photo_id : Z) (db : Db)
    (photo : Photo) :
  is_available self = true ->
  photos db !! photo_id = Some photo ->
  first_fault 1 (faults db) = None ->
  os_path_exists fs (file_path photo) = true ->
  unreadable self (file_path photo) ->
  detect_faces_in_photo self (file_path photo) = [] /\
  (process_photo_for_faces self fs photo_id db).1 = true /\
  committed (process_photo_for_faces self fs photo_id db).2 = committed db /\
  adds (trace (process_photo_for_faces self fs photo_id db).2) = adds (trace db).
Proof.
  intros Hav Hp Hf Hex Hun.
  pose proof (detect_unreadable _ _ Hun) as Hd.
  rewrite (process_photo_no_faces _ _ _ _ _ Hav Hp Hf Hex Hd). simpl.
  rewrite committed_autoflushed, trace_autoflushed. simpl.
  rewrite adds_app. unfold adds at 2. simpl.
  split_and!; [done | done | done | lia].
Qed.

(** C8.  When one of the queries of [get_face_detection_stats] fails with a
    database error [e], the call returns (it does not raise) a dictionary in
    which the five counts are 0, ['detection_available'] is False and
    ['error'] holds the message of the error. *)
Theorem stats_failure_is_reported
    (self : FaceDetectionService) (user_id : Z) (db : Db) (e : string) :
  first_fault 5 (faults db) = Some e ->
  let stats := (get_face_detection_stats self user_id db).1 in
  stats !! "total_photos" = Some (PInt 0) /\
  stats !! "photos_with_faces" = Some (PInt 0) /\
  stats !! "verified_tags" = Some (PInt 0) /\
  stats !! "unverified_tags" = Some (PInt 0) /\
  stats !! "unique_people" = Some (PInt 0) /\
  stats !! "detection_available" = Some (PBool false) /\
  stats !! "error" = Some (PStr e).
Proof.
  intros H. pose proof (stats_body_throws self user_id db e H) as Hthrow.
  unfold get_face_detection_stats, try_except.
  destruct (stats_body self user_id db) as [[d|e'] db1]; simpl in *; [done|].
  injection Hthrow as ->. unfold stats_error.
  split_and!; by simplify_map_eq.
Qed.

(* ===================================================================== *)
(** ** Properties of the app storage service *)
(* ===================================================================== *)

(** C10 (as amended).  When the storage backend is unavailable,
    [upload_file] returns [(False, "App storage not available")] and the
    store is not contacted.  When it is available and the upload to the
    store succeeds, [upload_file] returns [(True, "users/{user_id}/{filename}")]
    if a non-empty [user_id] was supplied, and [(True, "uploads/{filename}")]
    if [user_id] is [None] or the empty string. *)
Theorem upload_file_result
    (self : AppStorage.AppStorageService) (file : list Byte.byte)
    (filename : string) (user_id : option string) (b : AppStorage.Bucket) :
  (AppStorage.is_available self = false ->
   AppStorage.upload_file self file filename user_id b =
     ((false, "App storage not available"), b)) /\
  (forall m path b',
     AppStorage.is_available self = true ->
     AppStorage._storage self = Some m ->
     path = match user_id with
            | Some u => if decide (u = "") then "uploads/" +:+ filename
                        else "users/" +:+ u +:+ "/" +:+ filename
            | None => "uploads/" +:+ filename
            end ->
     AppStorage.storage_upload_file m file path b = (Returns tt, b') ->
     AppStorage.upload_file self file filename user_id b = ((true, path), b')).
Proof.
  unfold AppStorage.is_available, AppStorage.upload_file. split.
  - by intros ->.
  - intros m path b' -> Hm -> Hup. simpl.
    unfold AppStorage.upload_file_body. rewrite Hm.
    assert (AppStorage.storage_path_for filename user_id =
            match user_id with
            | Some u => if decide (u = "") then "uploads/" +:+ filename
                        else "users/" +:+ u +:+ "/" +:+ filename
            | None => "uploads/" +:+ filename
            end) as ->.
    { unfold AppStorage.storage_path_for, AppStorage.truthy.
      destruct user_id as [u|]; [|done]. simpl.
      destruct (decide (u = "")) as [->|Hne]; [done|].
      by rewrite bool_decide_eq_false_2. }
    by rewrite Hup.
Qed.

(** C1.  Re-processing is idempotent: after a successful
    [process_photo_for_faces] (started on a session with nothing pending), a
    second run on the same photo with the same detector and files inserts no
    region: the durable table is the one the first run left, and
    [db.session.add] is not called, because every candidate rectangle is
    found by the duplicate check and skipped.  This holds whatever the
    second run returns, database errors included.  With the session's
    autoflush on, the first run itself adds each rectangle at most once (a
    rectangle listed twice by the detector is found by its second duplicate
    check), so over both runs each region is inserted at most once. *)
Theorem reprocessing_inserts_nothing
    (self : FaceDetectionService) (fs : gset string) (photo_id : Z) (db : Db) :
  clean db ->
  (process_photo_for_faces self fs photo_id db).1 = true ->
  let db1 := (process_photo_for_faces self fs photo_id db).2 in
  committed (process_photo_for_faces self fs photo_id db1).2 = committed db1 /\
  adds (trace (process_photo_for_faces self fs photo_id db1).2) = adds (trace db1) /\
  (autoflush db = true ->
   forall x y w h,
     (adds_of photo_id x y w h (trace db1)
      <= S (adds_of photo_id x y w h (trace db)))%nat).
Proof.
  intros Hc Hok db1.
  destruct (process_photo_first self fs photo_id db Hc Hok) as (Hc1 & Hall).
  destruct (process_photo_again self fs photo_id db1 Hc1 Hall) as (H1 & H2).
  split_and!; [done | done |].
  intros Ha x y w h. apply process_photo_adds_once; [|done].
  by destruct Hc as (_ & _ & ?).
Qed.

(* ===================================================================== *)
(** ** The properties on the concrete scenario *)
(* ===================================================================== *)

(** Photo 1 is processed twice: the second run adds nothing to the two
    regions stored by the first. *)
Lemma reprocessing_inserts_nothing_witness :
  committed (process_photo_for_faces Scenario.service Scenario.disk 1 Scenario.db1).2
    = committed Scenario.db1 /\
  adds (trace (process_photo_for_faces Scenario.service Scenario.disk 1 Scenario.db1).2)
    = adds (trace Scenario.db1) /\
  (autoflush Scenario.db0 = true ->
   forall x y w h,
     (adds_of 1 x y w h (trace Scenario.db1)
      <= S (adds_of 1 x y w h (trace Scenario.db0)))%nat).
Proof.
  apply (reprocessing_inserts_nothing Scenario.service Scenario.disk 1 Scenario.db0).
  - repeat split.
  - vm_compute. reflexivity.
Defined.

(** Without the engine nothing happens. *)
Lemma unavailable_engine_is_a_no_op_witness :
  detect_faces_in_photo Scenario.disabled_service "a.jpg" = [] /\
  process_photo_for_faces Scenario.disabled_service Scenario.disk 1 Scenario.db0
    = (false, Scenario.db0).
Proof.
  apply (unavailable_engine_is_a_no_op Scenario.disabled_service Scenario.disk
           "a.jpg" 1 Scenario.db0).
  reflexivity.
Defined.

(** The commit of the two regions of photo 1 fails: the fourth statement of
    the call (after the photo lookup and the two duplicate checks) raises. *)
Lemma persistence_failure_rolls_back_witness :
  let op := ProcessPhoto Scenario.service Scenario.disk 1 in
  let db := Scenario.with_faults [None; None; None; Some "OperationalError"]
              Scenario.db0 in
  (run op db).1 = false /\
  committed (run op db).2 = committed db /\
  clean (run op db).2.
Proof.
  apply (persistence_failure_rolls_back
           (ProcessPhoto Scenario.service Scenario.disk 1)
           (Scenario.with_faults [None; None; None; Some "OperationalError"]
              Scenario.db0)
           "OperationalError").
  split; vm_compute; reflexivity.
Defined.

(** Region 1 of the processed photo is tagged with person 7. *)
Lemma tag_face_sets_person_and_verified_witness :
  committed (tag_face 1 7 Scenario.db1).2 !! 1 =
    Some (mkPhotoPerson 1 (Some 7) 10 10 50 50 placeholder_confidence true).
Proof.
  apply (tag_face_sets_person_and_verified 1 7 Scenario.db1 Scenario.region_A).
  - vm_compute. reflexivity.
  - vm_compute. reflexivity.
Defined.

(** Region 99 does not exist. *)
Lemma tag_face_unknown_region_witness :
  (tag_face 99 7 Scenario.db1).1 = false /\
  committed (tag_face 99 7 Scenario.db1).2 = committed Scenario.db1.
Proof.
  apply (tag_face_unknown_region 99 7 Scenario.db1).
  vm_compute. reflexivity.
Defined.

(** Tagging region 1 keeps the store consistent. *)
Lemma operations_keep_store_ok_witness :
  store_ok (run (TagFace 1 7) Scenario.db1).2.
Proof.
  apply (operations_keep_store_ok (TagFace 1 7) Scenario.db1).
  apply (operations_keep_store_ok
           (ProcessPhoto Scenario.service Scenario.disk 1) Scenario.db0).
  unfold store_ok. simpl.
  split_and!; [apply map_Forall_empty | apply map_Forall_empty | constructor
              | apply map_Forall_empty].
Defined.

(** Photo 2 is on disk but cannot be decoded. *)
Lemma unreadable_image_is_zero_faces_witness :
  detect_faces_in_photo Scenario.service "broken.jpg" = [] /\
  (process_photo_for_faces Scenario.service Scenario.disk 2 Scenario.db0).1 = true /\
  committed (process_photo_for_faces Scenario.service Scenario.disk 2 Scenario.db0).2
    = committed Scenario.db0 /\
  adds (trace (process_photo_for_faces Scenario.service Scenario.disk 2 Scenario.db0).2)
    = adds (trace Scenario.db0).
Proof.
  apply (unreadable_image_is_zero_faces Scenario.service Scenario.disk 2
           Scenario.db0 (mkPhoto 7 "broken.jpg")).
  - reflexivity.
  - vm_compute. reflexivity.
  - reflexivity.
  - vm_compute. reflexivity.
  - exists Scenario.cv2. split; [reflexivity | left; reflexivity].
Defined.

(** C7, counterexample.  The file of photo 4 is missing on disk; the engine
    is available, the photo exists and no database error occurs, yet
    [process_photo_for_faces] returns false instead of treating the photo as
    having zero faces. *)
Lemma missing_file_is_reported_as_failure :
  is_available Scenario.service = true /\
  photos Scenario.db0 !! 4 = Some (mkPhoto 7 "gone.jpg") /\
  faults Scenario.db0 = [] /\
  os_path_exists Scenario.disk "gone.jpg" = false /\
  (process_photo_for_faces Scenario.service Scenario.disk 4 Scenario.db0).1 = false.
Proof. split_and!; vm_compute; reflexivity. Qed.

(** The second counting query fails. *)
Lemma stats_failure_is_reported_witness :
  let stats :=
    (get_face_detection_stats Scenario.service 7
       (Scenario.with_faults [None; Some "connection lost"] Scenario.db1)).1 in
  stats !! "total_photos" = Some (PInt 0) /\
  stats !! "photos_with_faces" = Some (PInt 0) /\
  stats !! "verified_tags" = Some (PInt 0) /\
  stats !! "unverified_tags" = Some (PInt 0) /\
  stats !! "unique_people" = Some (PInt 0) /\
  stats !! "detection_available" = Some (PBool false) /\
  stats !! "error" = Some (PStr "connection lost").
Proof.
  apply (stats_failure_is_reported Scenario.service 7
           (Scenario.with_faults [None; Some "connection lost"] Scenario.db1)
           "connection lost").
  reflexivity.
Defined.

(** Photo 3 is on disk and shows no face. *)
Lemma zero_faces_is_success_witness :
  (process_photo_for_faces Scenario.service Scenario.disk 3 Scenario.db0).1 = true /\
  committed (process_photo_for_faces Scenario.service Scenario.disk 3 Scenario.db0).2
    = committed Scenario.db0 /\
  flushed (process_photo_for_faces Scenario.service Scenario.disk 3 Scenario.db0).2
    = flushed Scenario.db0 /\
  adds (trace (process_photo_for_faces Scenario.service Scenario.disk 3 Scenario.db0).2)
    = adds (trace Scenario.db0).
Proof.
  apply (zero_faces_is_success Scenario.service Scenario.disk 3 Scenario.db0
           (mkPhoto 7 "landscape.jpg")).
  - reflexivity.
  - vm_compute. reflexivity.
  - reflexivity.
  - vm_compute. reflexivity.
  - vm_compute. reflexivity.
Defined.

(** An upload for user "42", an upload without user, and an upload while
    the backend is unavailable. *)
Lemma upload_file_result_witness :
  AppStorage.upload_file Scenario.disabled_app_storage [] "a.jpg" (Some "42")
      Scenario.empty_bucket
    = ((false, "App storage not available"), Scenario.empty_bucket) /\
  (AppStorage.upload_file Scenario.app_storage [] "a.jpg" (Some "42")
      Scenario.empty_bucket).1 = (true, "users/42/a.jpg") /\
  (AppStorage.upload_file Scenario.app_storage [] "a.jpg" None
      Scenario.empty_bucket).1 = (true, "uploads/a.jpg").
Proof.
  split_and!.
  - apply (proj1 (upload_file_result Scenario.disabled_app_storage [] "a.jpg"
                    (Some "42") Scenario.empty_bucket)).
    reflexivity.
  - erewrite (proj2 (upload_file_result Scenario.app_storage [] "a.jpg"
                       (Some "42") Scenario.empty_bucket));
      reflexivity.
  - erewrite (proj2 (upload_file_result Scenario.app_storage [] "a.jpg"
                       None Scenario.empty_bucket));
      reflexivity.
Defined.

(** C10, counterexample.  A [user_id] is supplied, but it is the empty
    string: the file goes to "uploads/a.jpg", not to "users//a.jpg". *)
Lemma empty_user_id_uploads_to_uploads :
  (AppStorage.upload_file Scenario.app_storage [] "a.jpg" (Some "")
     Scenario.empty_bucket).1 = (true, "uploads/a.jpg") /\
  "uploads/a.jpg" <> "users/" +:+ "" +:+ "/" +:+ "a.jpg".
Proof. split; [vm_compute; reflexivity | discriminate]. Qed.

(* ===================================================================== *)
(** ** Further properties: failure and success of the operations *)
(* ===================================================================== *)

Section Outcomes.

Implicit Types (db : Db).

Lemma stable_unless_true_of_stable (m : M bool) : stable m -> stable_unless_true m.
Proof. intros H db _. apply H. Qed.

Lemma stable_unless_true_bind {A} (m : M A) (k : A -> M bool) :
  stable m -> (forall a, stable_unless_true (k a)) ->
  stable_unless_true (bind m k).
Proof.
  intros Hm Hk db. unfold bind. specialize (Hm db).
  destruct (m db) as [[a|e] db1] eqn:E; simpl in *; [|done].
  intros H. by rewrite (Hk a db1 H).
Qed.

Lemma stable_unless_true_commit : stable_unless_true (session_commit >> ret true).
Proof.
  intros db. unfold bind. rewrite session_commit_spec.
  by destruct (head (faults db)) as [[?|]|].
Qed.

Lemma stable_setattr id f : stable (setattr id f).
Proof. intros db. unfold setattr. simpl. by destruct (_ !! _). Qed.

Lemma process_photo_body_unless_true self fs photo :
  stable_unless_true (process_photo_body self fs photo).
Proof.
  unfold process_photo_body.
  apply stable_unless_true_bind; [apply stable_query|].
  intros [p|]; [|apply stable_unless_true_of_stable, stable_ret].
  destruct (negb _); [apply stable_unless_true_of_stable, stable_ret|].
  destruct (detect_faces_in_photo _ _) as [|f fl];
    [apply stable_unless_true_of_stable, stable_ret|].
  apply stable_unless_true_bind; [|intros _; apply stable_unless_true_commit].
  apply stable_for_each. intros a. apply stable_store_face.
Qed.

Lemma tag_face_body_unless_true id person :
  stable_unless_true (tag_face_body id person).
Proof.
  unfold tag_face_body.
  apply stable_unless_true_bind; [apply stable_query|].
  intros [p|]; [|apply stable_unless_true_of_stable, stable_ret].
  apply stable_unless_true_bind; [apply stable_setattr|]. intros _.
  apply stable_unless_true_bind; [apply stable_setattr|]. intros _.
  apply stable_unless_true_commit.
Qed.

Lemma try_except_false_stable (m : M bool) db :
  stable_unless_true m ->
  (try_except m (fun _ db => (false, session_rollback db)) db).1 = false ->
  committed (try_except m (fun _ db => (false, session_rollback db)) db).2
    = committed db.
Proof.
  intros Hm. unfold try_except. specialize (Hm db).
  destruct (m db) as [[b|e] db1]; simpl in *.
  - intros ->. by apply Hm.
  - intros _. by apply Hm.
Qed.

Lemma run_false_stable op db :
  (run op db).1 = false -> committed (run op db).2 = committed db.
Proof.
  destruct op as [self fs photo | id person]; simpl.
  - unfold process_photo_for_faces. destruct (negb _); [done|].
    apply try_except_false_stable, process_photo_body_unless_true.
  - apply try_except_false_stable, tag_face_body_unless_true.
Qed.

(** Without database errors one iteration of the loop returns. *)
Lemma store_face_no_faults photo face db :
  faults db = [] ->
  (store_face photo face db).1 = Returns tt /\
  faults (store_face photo face db).2 = [].
Proof.
  intros Hf. rewrite store_face_spec, Hf. simpl.
  set (db1 := autoflushed _).
  assert (faults db1 = []) as Hf1.
  { unfold db1. rewrite faults_autoflushed. simpl. by rewrite Hf. }
  by destruct (head (filter _ _)).
Qed.

Lemma for_each_no_faults photo faces db :
  faults db = [] ->
  (for_each faces (store_face photo) db).1 = Returns tt /\
  faults (for_each faces (store_face photo) db).2 = [].
Proof.
  revert db. induction faces as [|f faces IH]; intros db Hf; simpl; [done|].
  unfold bind. destruct (store_face_no_faults photo f db Hf) as [H1 H2].
  destruct (store_face photo f db) as [[[]|e] db1]; simpl in *; [|done].
  by apply IH.
Qed.

Lemma batch_no_faults photo faces db :
  faults db = [] ->
  (try_except (for_each faces (store_face photo) >> session_commit >> ret true)
              (fun _ db => (false, session_rollback db)) db).1 = true.
Proof.
  intros Hf. unfold try_except, bind.
  destruct (for_each_no_faults photo faces db Hf) as [H1 H2].
  destruct (for_each faces (store_face photo) db) as [[[]|e] db1]; simpl in *;
    [|done].
  rewrite session_commit_spec, H2. done.
Qed.

End Outcomes.

(** X1.  An operation that returns false has changed nothing: whenever
    [process_photo_for_faces] or [tag_face] returns False (engine
    unavailable, photo or region not found, file missing, or a database
    error followed by the rollback), the durable region table is the one
    from before the call. *)
Theorem failed_operation_changes_nothing (op : operation) (db : Db) :
  (run op db).1 = false ->
  committed (run op db).2 = committed db.
Proof. apply run_false_stable. Qed.

Lemma failed_operation_changes_nothing_witness :
  committed (run (ProcessPhoto Scenario.service Scenario.disk 4) Scenario.db1).2
    = committed Scenario.db1.
Proof.
  apply (failed_operation_changes_nothing
           (ProcessPhoto Scenario.service Scenario.disk 4) Scenario.db1).
  vm_compute. reflexivity.
Defined.

(** X2.  With a database that raises no error, [process_photo_for_faces]
    returns True exactly when the engine is available, the photo exists and
    its file is on disk; the number of faces found plays no role. *)
Theorem process_photo_succeeds_iff
    (self : FaceDetectionService) (fs : gset string) (photo_id : Z) (db : Db) :
  faults db = [] ->
  (process_photo_for_faces self fs photo_id db).1 = true <->
  is_available self = true /\
  exists photo, photos db !! photo_id = Some photo /\
                os_path_exists fs (file_path photo) = true.
Proof.
  intros Hf. unfold is_available. destruct (_available self) eqn:Hav.
  2:{ unfold process_photo_for_faces. rewrite Hav. simpl.
      split; [done | by intros [? _]]. }
  rewrite (process_photo_spec _ _ _ _ Hav), Hf. simpl.
  set (db1 := autoflushed _).
  assert (faults db1 = []) as Hf1.
  { unfold db1. rewrite faults_autoflushed. simpl. by rewrite Hf. }
  destruct (photos db !! photo_id) as [photo|]; simpl.
  2:{ split; [done | by intros [_ (? & ? & _)]]. }
  destruct (os_path_exists fs (file_path photo)) eqn:Hex; simpl.
  2:{ split; [done|]. intros [_ (p & Hp & Hex')]. injection Hp as <-. congruence. }
  assert ((match detect_faces_in_photo self (file_path photo) with
           | [] => (true, db1)
           | f :: fl =>
               try_except
                 (for_each (f :: fl) (store_face photo_id) >> session_commit >> ret true)
                 (fun _ db => (false, session_rollback db)) db1
           end).1 = true) as Hres.
  { destruct (detect_faces_in_photo self (file_path photo)); [done|].
    by apply batch_no_faults. }
  split; [|by intros _]. intros _. split; [done|]. by exists photo.
Qed.

Lemma process_photo_succeeds_iff_witness :
  (process_photo_for_faces Scenario.service Scenario.disk 3 Scenario.db1).1 = true <->
  is_available Scenario.service = true /\
  exists photo, photos Scenario.db1 !! 3 = Some photo /\
                os_path_exists Scenario.disk (file_path photo) = true.
Proof.
  apply (process_photo_succeeds_iff Scenario.service Scenario.disk 3 Scenario.db1).
  vm_compute. reflexivity.
Defined.

(* ===================================================================== *)
(** ** Further properties: tagging *)
(* ===================================================================== *)

Section TaggingEffect.

Implicit Types (db : Db) (r : PhotoPerson).

Lemma session_view_clean db : clean db -> session_view db = committed db.
Proof.
  intros (Ht & _ & Hd). unfold session_view. by rewrite Hd, Ht, (left_id_L ∅ (∪)).
Qed.

Lemma flushed_after_assignments id person db r :
  clean db ->
  flushed (mark_dirty id (set_verified true (set_person_id (Some person) r))
             (mark_dirty id (set_person_id (Some person) r) db))
    = <[id := tagged person r]> (committed db).
Proof.
  intros Hc. unfold flushed.
  rewrite !session_view_mark_dirty, insert_insert_eq, (session_view_clean _ Hc).
  destruct Hc as (_ & Hn & _). simpl. by rewrite Hn.
Qed.

(** What a successful [tag_face] on a clean session has done. *)
Lemma tag_face_true_inv id person db :
  clean db ->
  (tag_face id person db).1 = true ->
  exists r, committed db !! id = Some r /\
    committed (tag_face id person db).2 = <[id := tagged person r]> (committed db) /\
    clean (tag_face id person db).2.
Proof.
  intros Hc.
  pose proof (clean_record_call (OpRegionGet id) db Hc) as Hc1.
  pose proof (autoflushed_clean _ Hc1) as Haf.
  destruct (head (faults db)) as [[msg|]|] eqn:Hhead.
  { unfold tag_face, try_except, tag_face_body, PhotoPerson_query_get.
    unfold bind. rewrite query_spec, Hhead. simpl. congruence. }
  all: destruct (committed db !! id) as [r|] eqn:Hr.
  2,4: unfold tag_face, try_except, tag_face_body, PhotoPerson_query_get;
    unfold bind; rewrite query_spec, Hhead, Haf, (session_view_clean _ Hc1);
    simpl; rewrite Hr; simpl; congruence.
  all: unfold tag_face, try_except.
  all: erewrite (tag_face_body_found id person db r);
    [| intros msg; rewrite Hhead; congruence
     | by rewrite Haf, (session_view_clean _ Hc1) ].
  all: rewrite Haf; unfold bind; rewrite session_commit_spec.
  all: match goal with |- context [head (faults ?s)] =>
         destruct (head (faults s)) as [[msg|]|] end; simpl; try congruence.
  all: intros _; exists r; split; [done|].
  all: rewrite (flushed_after_assignments id person _ r Hc1).
  all: done.
Qed.

Lemma tag_face_false_when_missing id person db :
  clean db -> committed db !! id = None -> (tag_face id person db).1 = false.
Proof.
  intros Hc Hr. destruct (tag_face id person db).1 eqn:E; [|done].
  destruct (tag_face_true_inv id person db Hc E) as (r & Hr' & _). congruence.
Qed.

End TaggingEffect.

(** X3.  With a database that raises no error during the lookup and the
    commit, [tag_face] on a clean session returns True exactly when a
    region with that id is stored. *)
Theorem tag_face_succeeds_iff (photo_person_id person_id : Z) (db : Db) :
  clean db ->
  first_fault 2 (faults db) = None ->
  (tag_face photo_person_id person_id db).1 = true <->
  is_Some (committed db !! photo_person_id).
Proof.
  intros Hc Hf. split.
  - intros H. destruct (tag_face_true_inv _ _ _ Hc H) as (r & Hr & _). by exists r.
  - intros [r Hr]. eapply tag_face_succeeds; [|done].
    by rewrite (session_view_clean _ Hc).
Qed.

Lemma tag_face_succeeds_iff_witness :
  (tag_face 2 7 Scenario.db1).1 = true <-> is_Some (committed Scenario.db1 !! 2).
Proof.
  apply (tag_face_succeeds_iff 2 7 Scenario.db1).
  - repeat split.
  - reflexivity.
Defined.

(** X4.  [tag_face] touches one region only: on a clean session, every
    stored region with another id is the same after the call, whatever the
    call returns. *)
Theorem tag_face_leaves_other_regions
    (photo_person_id person_id other : Z) (db : Db) :
  clean db ->
  other <> photo_person_id ->
  committed (tag_face photo_person_id person_id db).2 !! other
    = committed db !! other.
Proof.
  intros Hc Hne.
  destruct (tag_face photo_person_id person_id db).1 eqn:E.
  - destruct (tag_face_true_inv _ _ _ Hc E) as (r & _ & -> & _).
    by rewrite lookup_insert_ne.
  - pose proof (run_false_stable (TagFace photo_person_id person_id) db E) as H.
    simpl in H. by rewrite H.
Qed.

Lemma tag_face_leaves_other_regions_witness :
  committed (tag_face 1 7 Scenario.db1).2 !! 2 = committed Scenario.db1 !! 2.
Proof.
  apply (tag_face_leaves_other_regions 1 7 2 Scenario.db1).
  - repeat split.
  - discriminate.
Defined.

(** X5.  Re-tagging overwrites and keeps no history: after two successful
    [tag_face] calls on the same region, first with [person1] and then with
    [person2], the stored table is the original one with that region
    assigned to [person2] and verified - the same table a single tagging
    with [person2] produces. *)
Theorem retagging_overwrites
    (photo_person_id person1 person2 : Z) (db : Db) (r : PhotoPerson) :
  clean db ->
  committed db !! photo_person_id = Some r ->
  (tag_face photo_person_id person1 db).1 = true ->
  let db1 := (tag_face photo_person_id person1 db).2 in
  (tag_face photo_person_id person2 db1).1 = true ->
  committed (tag_face photo_person_id person2 db1).2
    = <[photo_person_id := tagged person2 r]> (committed db).
Proof.
  intros Hc Hr H1 db1 H2. subst db1.
  destruct (tag_face_true_inv _ _ _ Hc H1) as (r1 & Hr1 & Hcm1 & Hc1).
  destruct (tag_face_true_inv _ _ _ Hc1 H2) as (r2 & Hr2 & Hcm2 & _).
  rewrite Hcm2. rewrite Hcm1 in *.
  rewrite lookup_insert_eq in Hr2. injection Hr2 as <-.
  rewrite insert_insert_eq. rewrite Hr in Hr1. injection Hr1 as <-.
  done.
Qed.

Lemma retagging_overwrites_witness :
  committed (tag_face 1 8 (tag_face 1 7 Scenario.db1).2).2
    = <[1 := tagged 8 Scenario.region_A]> (committed Scenario.db1).
Proof.
  apply (retagging_overwrites 1 7 8 Scenario.db1 Scenario.region_A).
  - repeat split.
  - vm_compute. reflexivity.
  - vm_compute. reflexivity.
  - vm_compute. reflexivity.
Defined.

(* ===================================================================== *)
(** ** Further properties: what detection stores *)
(* ===================================================================== *)

Section Stored.

Implicit Types (db : Db) (r : PhotoPerson).

Lemma only_detections_query photo faces m0 op db :
  only_detections photo faces m0 db ->
  only_detections photo faces m0 (autoflushed (record_call op db)).
Proof.
  intros (Hd & Hsub & Hrows). unfold only_detections.
  rewrite flushed_autoflushed.
  split_and!; [by apply dirty_autoflushed | done | done].
Qed.

Lemma only_detections_store_face photo faces m0 face db :
  face ∈ faces ->
  only_detections photo faces m0 db ->
  only_detections photo faces m0 (store_face photo face db).2.
Proof.
  intros Hin H. rewrite store_face_spec.
  pose proof (only_detections_query photo faces m0
                (OpRegionFind photo (Face.x face) (Face.y face)
                   (Face.width face) (Face.height face)) db H) as H1.
  destruct (head (faults db)) as [[msg|]|]; [done| |].
  all: destruct (head (filter _ _)) as [r|]; [done|].
  all: destruct H1 as (Hd & Hsub & Hrows); unfold only_detections.
  all: rewrite flushed_session_add.
  all: split_and!; [done | etrans; [exact Hsub | apply insert_row_subseteq] |].
  all: intros k r Hk; unfold insert_row in Hk.
  all: destruct (decide (next_id (flushed (autoflushed (record_call
         (OpRegionFind photo (Face.x face) (Face.y face)
            (Face.width face) (Face.height face)) db))) = k)) as [<-|Hne].
  all: try (rewrite lookup_insert_eq in Hk; injection Hk as <-;
            right; by exists face).
  all: rewrite lookup_insert_ne in Hk by done; by apply Hrows.
Qed.

Lemma only_detections_for_each photo faces m0 l db :
  (forall face, face ∈ l -> face ∈ faces) ->
  only_detections photo faces m0 db ->
  only_detections photo faces m0 (for_each l (store_face photo) db).2.
Proof.
  revert db. induction l as [|f l IH]; intros db Hl H; simpl; [done|].
  unfold bind.
  assert (f ∈ faces) as Hf by (apply Hl; constructor).
  pose proof (only_detections_store_face photo faces m0 f db Hf H) as H1.
  destruct (store_face photo f db) as [[[]|e] db1]; simpl in *; [|done].
  apply IH; [|done]. intros face Hin. apply Hl. by constructor.
Qed.

(** The durable table after the batch, whatever its outcome. *)
Lemma batch_only_detections photo faces db :
  clean db ->
  let res := try_except
               (for_each faces (store_face photo) >> session_commit >> ret true)
               (fun _ db => (false, session_rollback db)) db in
  committed db ⊆ committed res.2 /\
  forall k r, committed res.2 !! k = Some r ->
    committed db !! k = Some r \/ detection_row photo faces r.
Proof.
  intros Hc. simpl. unfold try_except, bind.
  assert (only_detections photo faces (committed db) db) as H0.
  { destruct Hc as (Ht & Hn & Hd). unfold only_detections, flushed, session_view.
    rewrite Hn, Hd, Ht, (left_id_L ∅ (∪)). simpl.
    split_and!; [done | done | by left]. }
  pose proof (only_detections_for_each photo faces (committed db) faces db
                (fun _ H => H) H0) as H1.
  pose proof (stable_for_each faces (store_face photo)
                (fun a => stable_store_face photo a) db) as Hst.
  destruct (for_each faces (store_face photo) db) as [[[]|e] db1]; simpl in *.
  2:{ rewrite Hst. split; [done | by left]. }
  rewrite session_commit_spec.
  destruct H1 as (_ & Hsub & Hrows).
  destruct (head (faults db1)) as [[msg|]|]; simpl; try done.
  rewrite Hst. split; [done | by left].
Qed.

Lemma no_duplicates_insert_row (m : gmap Z PhotoPerson) r :
  no_duplicate_regions m ->
  ~ map_Exists (fun _ r' => same_region (photo_id r) (face_x r) (face_y r)
                              (face_width r) (face_height r) r') m ->
  no_duplicate_regions (insert_row m r).
Proof.
  intros Hm Hnew k1 k2 r1 r2 H1 H2 Hsame. unfold insert_row in *.
  destruct (decide (next_id m = k1)) as [<-|Hn1];
    destruct (decide (next_id m = k2)) as [<-|Hn2]; [done | | |].
  - rewrite lookup_insert_eq in H1. injection H1 as <-.
    rewrite lookup_insert_ne in H2 by done.
    exfalso. apply Hnew. by exists k2, r2.
  - rewrite lookup_insert_eq in H2. injection H2 as <-.
    rewrite lookup_insert_ne in H1 by done.
    exfalso. apply Hnew. exists k1, r1. split; [done|].
    destruct Hsame as (? & ? & ? & ? & ?). by split_and!.
  - rewrite lookup_insert_ne in H1, H2 by done. by eapply Hm.
Qed.

Lemma duplicate_free_store_face photo face db :
  duplicate_free db -> duplicate_free (store_face photo face db).2.
Proof.
  intros (Ha & Hd & Hm). rewrite store_face_spec.
  set (op := OpRegionFind _ _ _ _ _).
  assert (autoflushed (record_call op db) = flush (record_call op db)) as ->.
  { unfold autoflushed. simpl. by rewrite Ha. }
  assert (duplicate_free (flush (record_call op db))) as Hfl.
  { unfold duplicate_free. by rewrite flushed_flush. }
  destruct (head (faults db)) as [[msg|]|]; [done| |].
  all: destruct (head (filter _ _)) as [r|] eqn:E; [done|].
  all: unfold duplicate_free; rewrite flushed_session_add, flushed_flush.
  all: split_and!; [done | done |].
  all: apply no_duplicates_insert_row; [done|]; simpl.
  all: intros Hex.
  all: apply (find_region_is_Some (txn (flush (record_call op db))) photo face)
         in Hex as [r' Hr']; congruence.
Qed.

Lemma duplicate_free_for_each photo faces db :
  duplicate_free db -> duplicate_free (for_each faces (store_face photo) db).2.
Proof.
  revert db. induction faces as [|f faces IH]; intros db H; simpl; [done|].
  unfold bind. pose proof (duplicate_free_store_face photo f db H) as H1.
  destruct (store_face photo f db) as [[[]|e] db1]; simpl in *; [|done].
  by apply IH.
Qed.

Lemma batch_no_duplicates photo faces db :
  clean db -> autoflush db = true ->
  no_duplicate_regions (committed db) ->
  no_duplicate_regions
    (committed (try_except
                  (for_each faces (store_face photo) >> session_commit >> ret true)
                  (fun _ db => (false, session_rollback db)) db).2).
Proof.
  intros Hc Ha Hm. unfold try_except, bind.
  assert (duplicate_free db) as H0.
  { unfold duplicate_free. rewrite (flushed_clean _ Hc).
    by destruct Hc as (_ & _ & ?). }
  pose proof (duplicate_free_for_each photo faces db H0) as H1.
  pose proof (stable_for_each faces (store_face photo)
                (fun a => stable_store_face photo a) db) as Hst.
  destruct (for_each faces (store_face photo) db) as [[[]|e] db1]; simpl in *.
  2:{ by rewrite Hst. }
  rewrite session_commit_spec.
  destruct H1 as (_ & _ & H1).
  destruct (head (faults db1)) as [[msg|]|]; simpl; try done.
  by rewrite Hst.
Qed.

Lemma no_duplicates_tagged (m : gmap Z PhotoPerson) id person r :
  m !! id = Some r ->
  no_duplicate_regions m ->
  no_duplicate_regions (<[id := tagged person r]> m).
Proof.
  intros Hr Hm k1 k2 r1 r2 H1 H2 Hsame.
  destruct (decide (id = k1)) as [<-|Hn1];
    destruct (decide (id = k2)) as [<-|Hn2]; [done | | |].
  - rewrite lookup_insert_eq in H1. injection H1 as <-.
    rewrite lookup_insert_ne in H2 by done.
    by apply (Hm id k2 r r2).
  - rewrite lookup_insert_eq in H2. injection H2 as <-.
    rewrite lookup_insert_ne in H1 by done.
    by apply (Hm k1 id r1 r).
  - rewrite lookup_insert_ne in H1, H2 by done. by eapply Hm.
Qed.

End Stored.

Section StoredByProcess.

Implicit Types (db : Db).

Lemma keeps_photos_query {A} P op (read : Db -> A) :
  keeps (fun s => photos s = P) (query op read).
Proof.
  intros db H. rewrite query_spec.
  destruct (head (faults db)) as [[?|]|]; simpl; try done;
    by rewrite photos_autoflushed.
Qed.

Lemma keeps_photos_body P self fs photo :
  keeps (fun s => photos s = P) (process_photo_body self fs photo).
Proof.
  unfold process_photo_body.
  apply keeps_bind; [apply keeps_photos_query|].
  intros [p|]; [|apply keeps_ret].
  destruct (negb _); [apply keeps_ret|].
  destruct (detect_faces_in_photo _ _) as [|f fl]; [apply keeps_ret|].
  apply keeps_bind.
  { apply keeps_for_each. intros a. apply keeps_bind; [apply keeps_photos_query|].
    intros [?|]; [apply keeps_ret | by intros db]. }
  intros _. apply keeps_bind; [|intros _; apply keeps_ret].
  intros db H. rewrite session_commit_spec.
  by destruct (head (faults db)) as [[?|]|].
Qed.

Lemma photos_process self fs photo_id db :
  photos (process_photo_for_faces self fs photo_id db).2 = photos db.
Proof.
  unfold process_photo_for_faces. destruct (negb _); [done|].
  by apply (keeps_try_except (fun s => photos s = photos db));
    [apply keeps_photos_body | |].
Qed.

End StoredByProcess.

(** X6.  [process_photo_for_faces] only ever adds detection rows: on a
    clean session, every region stored before the call is stored unchanged
    under the same id afterwards, and every other stored region is a new row
    for this photo with no person, [verified = False] and the rectangle and
    confidence of one of the detected faces.  This holds whatever the call
    returns. *)
Theorem process_photo_only_adds_detections
    (self : FaceDetectionService) (fs : gset string) (photo_id : Z) (db : Db) :
  clean db ->
  committed db ⊆ committed (process_photo_for_faces self fs photo_id db).2 /\
  forall k r,
    committed (process_photo_for_faces self fs photo_id db).2 !! k = Some r ->
    committed db !! k = Some r \/
    exists photo, photos db !! photo_id = Some photo /\
      detection_row photo_id (detect_faces_in_photo self (file_path photo)) r.
Proof.
  intros Hc. destruct (_available self) eqn:Hav.
  2:{ unfold process_photo_for_faces. rewrite Hav. simpl. split; [done | by left]. }
  rewrite (process_photo_spec _ _ _ _ Hav).
  rewrite (autoflushed_clean _ (clean_record_call _ _ Hc)).
  set (db1 := record_call _ db).
  assert (clean db1) as Hc1 by by apply clean_record_call.
  destruct (head (faults db)) as [[msg|]|]; [split; [done | by left] | |].
  all: destruct (photos db !! photo_id) as [photo|] eqn:Hp;
    [|split; [done | by left]].
  all: destruct (os_path_exists fs (file_path photo)); [|split; [done | by left]].
  all: destruct (detect_faces_in_photo self (file_path photo)) as [|f fl] eqn:Hd;
    [split; [done | by left]|].
  all: destruct (batch_only_detections photo_id (f :: fl) db1 Hc1) as [Hsub Hrows].
  all: split; [done|]; intros k r Hk.
  all: destruct (Hrows k r Hk) as [?|?];
    [by left | right; exists photo; split; [done | by rewrite Hd]].
Qed.

Lemma process_photo_only_adds_detections_witness :
  committed Examples.db2
    ⊆ committed (process_photo_for_faces Scenario.service Scenario.disk 1
                   Examples.db2).2 /\
  forall k r,
    committed (process_photo_for_faces Scenario.service Scenario.disk 1
                 Examples.db2).2 !! k = Some r ->
    committed Examples.db2 !! k = Some r \/
    exists photo, photos Examples.db2 !! 1 = Some photo /\
      detection_row 1 (detect_faces_in_photo Scenario.service (file_path photo)) r.
Proof.
  apply (process_photo_only_adds_detections Scenario.service Scenario.disk 1
           Examples.db2).
  repeat split.
Defined.

(** X7.  A successful [process_photo_for_faces] stores every detected face:
    on a clean session, when the call returns True, each face that
    [detect_faces_in_photo] reports for the photo's file has a stored region
    of this photo with exactly its rectangle. *)
Theorem process_photo_stores_every_face
    (self : FaceDetectionService) (fs : gset string) (photo_id : Z) (db : Db)
    (photo : Photo) (face : Face.t) :
  clean db ->
  (process_photo_for_faces self fs photo_id db).1 = true ->
  photos db !! photo_id = Some photo ->
  face ∈ detect_faces_in_photo self (file_path photo) ->
  has_region (committed (process_photo_for_faces self fs photo_id db).2)
    photo_id face.
Proof.
  intros Hc Hok Hp Hin.
  destruct (process_photo_first self fs photo_id db Hc Hok) as (_ & Hall).
  apply (Hall photo face); [|done].
  by rewrite photos_process.
Qed.

Lemma process_photo_stores_every_face_witness :
  has_region
    (committed (process_photo_for_faces Scenario.service Scenario.disk 1
                  Scenario.db0).2)
    1 (Face.mk 1 100 10 50 50 placeholder_confidence).
Proof.
  apply (process_photo_stores_every_face Scenario.service Scenario.disk 1
           Scenario.db0 (mkPhoto 7 "a.jpg")).
  - repeat split.
  - vm_compute. reflexivity.
  - vm_compute. reflexivity.
  - vm_compute. apply list_elem_of_In. right. left. reflexivity.
Defined.

(** X8.  With the session's autoflush on, the operations keep the store
    free of duplicates: if no two stored regions of one photo have the same
    rectangle before [process_photo_for_faces] or [tag_face] runs on a clean
    session, none have afterwards - even when the detector reports the same
    rectangle twice. *)
Theorem operations_keep_regions_distinct (op : operation) (db : Db) :
  clean db ->
  autoflush db = true ->
  no_duplicate_regions (committed db) ->
  no_duplicate_regions (committed (run op db).2).
Proof.
  intros Hc Ha Hm. destruct op as [self fs photo_id | id person]; simpl.
  - destruct (_available self) eqn:Hav.
    2:{ unfold process_photo_for_faces. by rewrite Hav. }
    rewrite (process_photo_spec _ _ _ _ Hav).
    rewrite (autoflushed_clean _ (clean_record_call _ _ Hc)).
    set (db1 := record_call _ db).
    assert (clean db1) as Hc1 by by apply clean_record_call.
    destruct (head (faults db)) as [[msg|]|]; [done| |].
    all: destruct (photos db !! photo_id) as [photo|]; [|done].
    all: destruct (os_path_exists fs (file_path photo)); [|done].
    all: destruct (detect_faces_in_photo self (file_path photo)) as [|f fl];
      [done|].
    all: by apply batch_no_duplicates.
  - destruct (tag_face id person db).1 eqn:E.
    + destruct (tag_face_true_inv _ _ _ Hc E) as (r & Hr & -> & _).
      by apply no_duplicates_tagged.
    + pose proof (run_false_stable (TagFace id person) db E) as H.
      simpl in H. by rewrite H.
Qed.

Lemma operations_keep_regions_distinct_witness :
  no_duplicate_regions
    (committed (run (ProcessPhoto Scenario.service Scenario.disk 1) Scenario.db0).2).
Proof.
  apply (operations_keep_regions_distinct
           (ProcessPhoto Scenario.service Scenario.disk 1) Scenario.db0).
  - repeat split.
  - reflexivity.
  - intros k1 k2 r1 r2 H1. simpl in H1. by rewrite lookup_empty in H1.
Defined.

(* ===================================================================== *)
(** ** Further properties: the detector's results *)
(* ===================================================================== *)

(** X9.  Every entry of the list returned by [detect_faces_in_photo]
    carries its position in the list as ['id'] and the placeholder
    confidence 0.8, for every service and every path. *)
Theorem detected_faces_are_numbered
    (self : FaceDetectionService) (photo_path : string) (i : nat) (face : Face.t) :
  detect_faces_in_photo self photo_path !! i = Some face ->
  Face.id face = i /\ Face.confidence face = placeholder_confidence.
Proof.
  unfold detect_faces_in_photo, detect_faces_body.
  destruct (negb _); [by rewrite lookup_nil|].
  destruct (_cv2 self) as [cv2|]; [|by rewrite lookup_nil].
  destruct (imread cv2 photo_path) as [[image|]|e]; simpl;
    try by rewrite lookup_nil.
  destruct (cvtColor_BGR2GRAY cv2 image) as [gray|e]; simpl;
    [|by rewrite lookup_nil].
  destruct (detectMultiScale cv2 gray) as [rects|e]; simpl;
    [|by rewrite lookup_nil].
  rewrite list_lookup_imap.
  destruct (rects !! i) as [[[[x y] w] h]|]; simpl; [|done].
  intros [= <-]. done.
Qed.

Lemma detected_faces_are_numbered_witness :
  Face.id (Face.mk 1 100 10 50 50 placeholder_confidence) = 1%nat /\
  Face.confidence (Face.mk 1 100 10 50 50 placeholder_confidence)
    = placeholder_confidence.
Proof.
  apply (detected_faces_are_numbered Scenario.service "a.jpg" 1).
  vm_compute. reflexivity.
Defined.

(** X10.  When the image is decoded and the classifier returns its
    rectangles, [detect_faces_in_photo] returns one face per rectangle, in
    the same order and with the same x, y, width and height. *)
Theorem detected_faces_follow_rectangles
    (self : FaceDetectionService) (cv2 : Cv2) (photo_path : string)
    (image gray : Mat cv2) (rects : list (Z * Z * Z * Z)) :
  is_available self = true ->
  _cv2 self = Some cv2 ->
  imread cv2 photo_path = Returns (Some image) ->
  cvtColor_BGR2GRAY cv2 image = Returns gray ->
  detectMultiScale cv2 gray = Returns rects ->
  length (detect_faces_in_photo self photo_path) = length rects /\
  forall i x y w h,
    rects !! i = Some (x, y, w, h) ->
    detect_faces_in_photo self photo_path !! i
      = Some (Face.mk i x y w h placeholder_confidence).
Proof.
  unfold is_available, detect_faces_in_photo, detect_faces_body.
  intros -> -> Him Hgray Hrects. simpl.
  rewrite Him. simpl. rewrite Hgray. simpl. rewrite Hrects. simpl.
  split; [apply length_imap|].
  intros i x y w h Hi. by rewrite list_lookup_imap, Hi.
Qed.

Lemma detected_faces_follow_rectangles_witness :
  length (detect_faces_in_photo Scenario.service "a.jpg") = 2%nat /\
  forall i x y w h,
    [(10, 10, 50, 50); (100, 10, 50, 50)] !! i = Some (x, y, w, h) ->
    detect_faces_in_photo Scenario.service "a.jpg" !! i
      = Some (Face.mk i x y w h placeholder_confidence).
Proof.
  apply (detected_faces_follow_rectangles Scenario.service Scenario.cv2 "a.jpg"
           "a.jpg" "a.jpg" [(10, 10, 50, 50); (100, 10, 50, 50)]);
    reflexivity.
Defined.

(* ===================================================================== *)
(** ** Further properties: statistics *)
(* ===================================================================== *)

Section StatisticsValues.

Implicit Types (db : Db).

Lemma first_fault_S n (fs : list (option string)) :
  first_fault (S n) fs = None ->
  (forall msg, head fs <> Some (Some msg)) /\ first_fault n (tail fs) = None.
Proof.
  destruct fs as [|[msg|] fs]; simpl; [|done|].
  - intros _. split; [done|]. by destruct n.
  - intros H. split; [congruence | done].
Qed.

Lemma bind_query_clean {A B} op (read : Db -> A) (k : A -> M B) db :
  clean db ->
  (forall msg, head (faults db) <> Some (Some msg)) ->
  bind (query op read) k db = k (read (record_call op db)) (record_call op db).
Proof.
  intros Hc Hf. unfold bind. rewrite query_spec.
  rewrite (autoflushed_clean _ (clean_record_call _ _ Hc)).
  destruct (head (faults db)) as [[msg|]|]; [by destruct (Hf msg) | done | done].
Qed.

(** The dictionary of the normal path, on a clean session. *)
Lemma stats_on_clean self user_id db :
  clean db ->
  first_fault 5 (faults db) = None ->
  (get_face_detection_stats self user_id db).1 =
    <["total_photos" := PInt (Z.of_nat (count_photos user_id db))]>
    (<["photos_with_faces" := PInt (Z.of_nat (count_photos_with_faces user_id db))]>
    (<["verified_tags" := PInt (Z.of_nat (count_tags user_id true db))]>
    (<["unverified_tags" := PInt (Z.of_nat (count_tags user_id false db))]>
    (<["unique_people" := PInt (Z.of_nat (count_people user_id db))]>
    (<["detection_available" := PBool (_available self)]> ∅))))).
Proof.
  intros Hc Hf.
  unfold get_face_detection_stats, try_except, stats_body, query_count.
  repeat
    (let Hh := fresh "Hh" in
     match goal with
     | Hc : clean ?d, Hf : first_fault (S _) (faults ?d) = None
       |- context [bind (query ?op ?read) ?k ?d] =>
         apply first_fault_S in Hf as [Hh Hf];
         rewrite (bind_query_clean op read k d Hc Hh);
         apply (clean_record_call op d) in Hc;
         change (tail (faults d)) with (faults (record_call op d)) in Hf;
         clear Hh
     end).
  done.
Qed.

Lemma with_faces_le_total user_id db :
  (count_photos_with_faces user_id db <= count_photos user_id db)%nat.
Proof.
  unfold count_photos_with_faces, count_photos.
  apply map_subseteq_size, map_filter_subseteq_ext.
  by intros k p _ [? _].
Qed.

Lemma tags_split user_id db :
  (count_tags user_id true db + count_tags user_id false db)%nat
    = count_regions user_id db.
Proof.
  unfold count_tags, count_regions.
  rewrite <- map_size_disj_union.
  - f_equal. rewrite <- map_filter_or. apply map_filter_ext.
    intros k r _. simpl. split; [by intros [[? _]|[? _]]|].
    intros H. destruct (verified r); [by left | by right].
  - apply map_disjoint_spec. intros k r1 r2 H1 H2.
    pose proof (map_lookup_filter_Some_1_1 _ _ _ _ H1) as E1.
    pose proof (map_lookup_filter_Some_1_1 _ _ _ _ H2) as E2.
    apply map_lookup_filter_Some_1_2 in H1 as [_ H1].
    apply map_lookup_filter_Some_1_2 in H2 as [_ H2].
    simpl in *. congruence.
Qed.

Lemma stable_stats_body self user_id : stable (stats_body self user_id).
Proof.
  unfold stats_body, query_count.
  repeat (apply stable_bind; [apply stable_query | intros ?]).
  apply stable_ret.
Qed.

End StatisticsValues.

(** X11.  On a clean session and without database errors,
    [get_face_detection_stats] returns the six entries of the normal path
    and no ['error'] entry; ['detection_available'] is the service's flag;
    the number of photos with faces never exceeds the number of photos; and
    verified and unverified tags together are exactly the regions on the
    user's photos. *)
Theorem stats_are_consistent
    (self : FaceDetectionService) (user_id : Z) (db : Db) :
  clean db ->
  first_fault 5 (faults db) = None ->
  let stats := (get_face_detection_stats self user_id db).1 in
  exists total with_faces verified_n unverified_n people_n : nat,
    stats !! "total_photos" = Some (PInt (Z.of_nat total)) /\
    stats !! "photos_with_faces" = Some (PInt (Z.of_nat with_faces)) /\
    stats !! "verified_tags" = Some (PInt (Z.of_nat verified_n)) /\
    stats !! "unverified_tags" = Some (PInt (Z.of_nat unverified_n)) /\
    stats !! "unique_people" = Some (PInt (Z.of_nat people_n)) /\
    stats !! "detection_available" = Some (PBool (is_available self)) /\
    stats !! "error" = None /\
    (with_faces <= total)%nat /\
    (verified_n + unverified_n)%nat = count_regions user_id db.
Proof.
  intros Hc Hf stats. unfold stats. rewrite (stats_on_clean _ _ _ Hc Hf).
  exists (count_photos user_id db), (count_photos_with_faces user_id db),
    (count_tags user_id true db), (count_tags user_id false db),
    (count_people user_id db).
  split_and!; try by simplify_map_eq.
  - apply with_faces_le_total.
  - apply tags_split.
Qed.

Lemma stats_are_consistent_witness :
  let stats := (get_face_detection_stats Scenario.service 7 Examples.db2).1 in
  exists total with_faces verified_n unverified_n people_n : nat,
    stats !! "total_photos" = Some (PInt (Z.of_nat total)) /\
    stats !! "photos_with_faces" = Some (PInt (Z.of_nat with_faces)) /\
    stats !! "verified_tags" = Some (PInt (Z.of_nat verified_n)) /\
    stats !! "unverified_tags" = Some (PInt (Z.of_nat unverified_n)) /\
    stats !! "unique_people" = Some (PInt (Z.of_nat people_n)) /\
    stats !! "detection_available" = Some (PBool (is_available Scenario.service)) /\
    stats !! "error" = None /\
    (with_faces <= total)%nat /\
    (verified_n + unverified_n)%nat = count_regions 7 Examples.db2.
Proof.
  apply (stats_are_consistent Scenario.service 7 Examples.db2).
  - repeat split.
  - reflexivity.
Defined.

(** X12.  For a user who owns no photo, the four photo-derived counts of
    [get_face_detection_stats] are zero (on a clean session, without
    database errors); ['unique_people'] is counted from the people table
    alone and need not be zero. *)
Theorem stats_without_photos
    (self : FaceDetectionService) (user_id : Z) (db : Db) :
  clean db ->
  first_fault 5 (faults db) = None ->
  (forall k photo, photos db !! k = Some photo -> photo_user_id photo <> user_id) ->
  let stats := (get_face_detection_stats self user_id db).1 in
  stats !! "total_photos" = Some (PInt 0) /\
  stats !! "photos_with_faces" = Some (PInt 0) /\
  stats !! "verified_tags" = Some (PInt 0) /\
  stats !! "unverified_tags" = Some (PInt 0).
Proof.
  intros Hc Hf Hnone stats. unfold stats. rewrite (stats_on_clean _ _ _ Hc Hf).
  assert (count_photos user_id db = 0%nat) as ->.
  { unfold count_photos. rewrite map_empty_filter_2; [done|].
    intros k p Hk. simpl. by apply Hnone in Hk. }
  assert (count_photos_with_faces user_id db = 0%nat) as ->.
  { unfold count_photos_with_faces.
    rewrite map_empty_filter_2; [done|].
    intros k p Hk [Hu _]. simpl in Hu. by apply Hnone in Hk. }
  assert (forall v, count_tags user_id v db = 0%nat) as Htags.
  { intros v. unfold count_tags.
    rewrite map_empty_filter_2; [done|].
    intros k r Hk [Hu _]. simpl in Hu.
    destruct (photos db !! photo_id r) as [p|] eqn:Hp; [|done].
    simpl in Hu. injection Hu as Hu. by apply Hnone in Hp. }
  rewrite !Htags. split_and!; by simplify_map_eq.
Qed.

Lemma stats_without_photos_witness :
  let stats := (get_face_detection_stats Scenario.service 8 Examples.db2).1 in
  stats !! "total_photos" = Some (PInt 0) /\
  stats !! "photos_with_faces" = Some (PInt 0) /\
  stats !! "verified_tags" = Some (PInt 0) /\
  stats !! "unverified_tags" = Some (PInt 0).
Proof.
  apply (stats_without_photos Scenario.service 8 Examples.db2).
  - repeat split.
  - reflexivity.
  - intros k photo Hk.
    assert (photos Examples.db2 = photos Scenario.db0) as E
      by (vm_compute; reflexivity).
    rewrite E in Hk. unfold Scenario.db0 in Hk. simpl in Hk.
    repeat (apply lookup_insert_Some in Hk as [[_ <-]|[_ Hk]]; [discriminate|]).
    by rewrite lookup_empty in Hk.
Defined.

(** X13.  [get_face_detection_stats] is read-only: for every session,
    fault schedule and user, the durable region table after the call is the
    one from before (flushes caused by its queries stay in the open
    transaction and are not committed by this call). *)
Theorem stats_never_write
    (self : FaceDetectionService) (user_id : Z) (db : Db) :
  committed (get_face_detection_stats self user_id db).2 = committed db.
Proof.
  unfold get_face_detection_stats, try_except.
  pose proof (stable_stats_body self user_id db) as H.
  by destruct (stats_body self user_id db) as [[d|e] db1].
Qed.

(* ===================================================================== *)
(** ** Further properties: app storage *)
(* ===================================================================== *)

Section Storage.

Lemma dict_store_keeps_uploads : StorageOps.keeps_uploads StorageOps.dict_store.
Proof.
  intros content path b b' H. simpl in H. injection H as <-.
  exists (AppStorage.mkBucket (<[path := content]> (AppStorage.objects b))
            (AppStorage.requests b ++ [path])).
  simpl. by rewrite lookup_insert_eq.
Qed.

Lemma dict_store_forgets_deleted : StorageOps.forgets_deleted StorageOps.dict_store.
Proof.
  intros path b b' H. simpl in H.
  destruct (AppStorage.objects b !! path) as [content|]; [|done].
  injection H as <-. eexists. simpl. rewrite lookup_delete_eq.
  rewrite bool_decide_eq_false_2; [done|]. by intros [? ?].
Qed.

Lemma string_app_cons a (s1 s2 : string) :
  String a s1 +:+ s2 = String a (s1 +:+ s2).
Proof. reflexivity. Qed.

Lemma string_app_assoc (s1 s2 s3 : string) :
  (s1 +:+ s2) +:+ s3 = s1 +:+ s2 +:+ s3.
Proof.
  induction s1 as [|a s1 IH]; [done|]. rewrite !string_app_cons. by rewrite IH.
Qed.

Lemma replace_char_app c new s1 s2 :
  StorageOps.replace_char c new (s1 +:+ s2)
    = StorageOps.replace_char c new s1 +:+ StorageOps.replace_char c new s2.
Proof.
  induction s1 as [|a s1 IH]; [done|]. rewrite string_app_cons. simpl.
  destruct (decide (a = c)); rewrite IH; [|done].
  by rewrite string_app_assoc.
Qed.

Lemma replace_char_hit c new s :
  StorageOps.replace_char c new (String c s)
    = new +:+ StorageOps.replace_char c new s.
Proof. simpl. by rewrite decide_True. Qed.

Lemma replace_char_free c new s :
  free_of c s -> StorageOps.replace_char c new s = s.
Proof.
  induction s as [|a s IH]; simpl; [done|]. intros [Hne Hs].
  destruct (decide (a = c)); [done|]. by rewrite IH.
Qed.

End Storage.

(** X14.  Upload and download compose: with a store that keeps what it is
    given, the path returned by a successful [upload_file] can be passed to
    [download_file], which then succeeds and returns exactly the uploaded
    bytes. *)
Theorem upload_then_download
    (self : StorageOps.AppStorageService) (m : StorageOps.ReplitObjectStorage)
    (file : list Byte.byte) (filename : string) (user_id : option string)
    (b b' : AppStorage.Bucket) (path : string) :
  StorageOps._storage self = Some m ->
  StorageOps.keeps_uploads m ->
  StorageOps.upload_file self file filename user_id b = ((true, path), b') ->
  (StorageOps.download_file self path b').1 = (true, file).
Proof.
  intros Hm Hkeep.
  unfold StorageOps.upload_file, AppStorage.upload_file, StorageOps.for_upload,
    AppStorage.upload_file_body, StorageOps.download_file.
  simpl. destruct (StorageOps._available self); simpl; [|done].
  rewrite Hm. simpl.
  destruct (AppStorage.storage_upload_file (StorageOps.uploader m) file
              (AppStorage.storage_path_for filename user_id) b)
    as [[[]|e] b1] eqn:Hup; [|done].
  intros [= <- <-].
  destruct (Hkeep _ _ _ _ Hup) as (b2 & ->). done.
Qed.

Lemma upload_then_download_witness :
  (StorageOps.download_file Examples.app_storage "users/42/beach.jpg"
     Examples.bucket1).1 = (true, Examples.holiday).
Proof.
  apply (upload_then_download Examples.app_storage StorageOps.dict_store
           Examples.holiday "beach.jpg" (Some "42") Scenario.empty_bucket
           Examples.bucket1 "users/42/beach.jpg").
  - reflexivity.
  - apply dict_store_keeps_uploads.
  - vm_compute. reflexivity.
Defined.

(** X15.  Delete and existence check compose: with a store in which a
    deleted path is gone, after a successful [delete_file] the service's
    [file_exists] reports False for that path. *)
Theorem delete_then_missing
    (self : StorageOps.AppStorageService) (m : StorageOps.ReplitObjectStorage)
    (file_path : string) (b b' : AppStorage.Bucket) (msg : string) :
  StorageOps._storage self = Some m ->
  StorageOps.forgets_deleted m ->
  StorageOps.delete_file self file_path b = ((true, msg), b') ->
  (StorageOps.file_exists self file_path b').1 = false.
Proof.
  intros Hm Hforget. unfold StorageOps.delete_file, StorageOps.file_exists.
  destruct (StorageOps._available self); simpl; [|done].
  rewrite Hm.
  destruct (StorageOps.storage_delete_file m file_path b) as [[[]|e] b1] eqn:Hdel;
    [|done].
  intros [= <- <-].
  destruct (Hforget _ _ _ Hdel) as (b2 & ->). done.
Qed.

Lemma delete_then_missing_witness :
  (StorageOps.file_exists Examples.app_storage "users/42/beach.jpg"
     (StorageOps.delete_file Examples.app_storage "users/42/beach.jpg"
        Examples.bucket1).2).1 = false.
Proof.
  apply (delete_then_missing Examples.app_storage StorageOps.dict_store
           "users/42/beach.jpg" Examples.bucket1 _ "").
  - reflexivity.
  - apply dict_store_forgets_deleted.
  - vm_compute. reflexivity.
Defined.

(** X16.  For a file name with one dot, [create_thumbnail] inserts the size
    tag before the extension: with the backend available and both [stem]
    and [ext] free of dots, the result for "{stem}.{ext}" is
    [(True, "{stem}_thumb_{w}x{h}.{ext}")]. *)
Theorem create_thumbnail_tags_the_name
    (self : StorageOps.AppStorageService) (stem ext : string) (w h : Z) :
  StorageOps._available self = true ->
  free_of StorageOps.dot stem ->
  free_of StorageOps.dot ext ->
  StorageOps.create_thumbnail self (stem +:+ "." +:+ ext) (w, h)
    = (true, stem +:+ "_thumb_" +:+ pretty w +:+ "x" +:+ pretty h +:+ "." +:+ ext).
Proof.
  intros Hav Hstem Hext. unfold StorageOps.create_thumbnail. rewrite Hav. simpl.
  f_equal. rewrite replace_char_app, (replace_char_free _ _ stem Hstem).
  f_equal. change ("." +:+ ext) with (String StorageOps.dot ext).
  rewrite replace_char_hit, (replace_char_free _ _ ext Hext).
  unfold StorageOps.thumb_suffix. cbn [fst snd].
  rewrite !string_app_assoc. done.
Qed.

Lemma create_thumbnail_tags_the_name_witness :
  StorageOps.create_thumbnail Examples.app_storage ("beach" +:+ "." +:+ "jpg")
    StorageOps.default_thumbnail_size
    = (true, "beach" +:+ "_thumb_" +:+ pretty (150:Z) +:+ "x" +:+ pretty (150:Z)
               +:+ "." +:+ "jpg").
Proof.
  apply (create_thumbnail_tags_the_name Examples.app_storage "beach" "jpg" 150 150).
  - reflexivity.
  - simpl. repeat split; discriminate.
  - simpl. repeat split; discriminate.
Defined.

(** X17.  For a path without any dot, [create_thumbnail] reports success
    and returns the path of the source image itself: the thumbnail path is
    not distinct from the original. *)
Theorem create_thumbnail_without_extension
    (self : StorageOps.AppStorageService) (file_path : string) (size : Z * Z) :
  StorageOps._available self = true ->
  free_of StorageOps.dot file_path ->
  StorageOps.create_thumbnail self file_path size = (true, file_path).
Proof.
  intros Hav Hfree. unfold StorageOps.create_thumbnail. rewrite Hav. simpl.
  by rewrite replace_char_free.
Qed.

Lemma create_thumbnail_without_extension_witness :
  StorageOps.create_thumbnail Examples.app_storage "README"
    StorageOps.default_thumbnail_size = (true, "README").
Proof.
  apply (create_thumbnail_without_extension Examples.app_storage "README"
           StorageOps.default_thumbnail_size).
  - reflexivity.
  - simpl. repeat split; discriminate.
Defined.

(* ===================================================================== *)
(** ** Further properties: operations in sequence *)
(* ===================================================================== *)

Section Sequences.

Implicit Types (db : Db).

Lemma commit_or_rollback_clean (m : M unit) db :
  clean (try_except (m >> session_commit >> ret true)
                    (fun _ db => (false, session_rollback db)) db).2.
Proof.
  unfold try_except, bind.
  destruct (m db) as [[[]|e] db1]; [|done].
  rewrite session_commit_spec.
  by destruct (head (faults db1)) as [[msg|]|].
Qed.

Lemma process_photo_clean self fs photo_id db :
  clean db -> clean (process_photo_for_faces self fs photo_id db).2.
Proof.
  intros Hc. destruct (_available self) eqn:Hav.
  2:{ unfold process_photo_for_faces. by rewrite Hav. }
  rewrite (process_photo_spec _ _ _ _ Hav).
  rewrite (autoflushed_clean _ (clean_record_call _ _ Hc)).
  pose proof (clean_record_call (OpPhotoGet photo_id) db Hc) as Hc1.
  destruct (head (faults db)) as [[msg|]|]; [done| |].
  all: destruct (photos db !! photo_id) as [photo|]; [|done].
  all: destruct (os_path_exists fs (file_path photo)); [|done].
  all: destruct (detect_faces_in_photo self (file_path photo)) as [|f fl];
    [done|].
  all: apply (commit_or_rollback_clean (for_each (f :: fl) (store_face photo_id))).
Qed.

Lemma tag_face_clean id person db :
  clean db -> clean (tag_face id person db).2.
Proof.
  intros Hc. destruct (tag_face id person db).1 eqn:E.
  { by destruct (tag_face_true_inv _ _ _ Hc E) as (r & _ & _ & ?). }
  clear E.
  pose proof (clean_record_call (OpRegionGet id) db Hc) as Hc1.
  unfold tag_face, tag_face_body, PhotoPerson_query_get.
  unfold try_except at 1. unfold bind at 1. rewrite query_spec.
  rewrite (autoflushed_clean _ Hc1).
  destruct (head (faults db)) as [[msg|]|]; [done| |].
  all: destruct (session_view _ !! id) as [r|]; [|done].
  all: apply (commit_or_rollback_clean
                (setattr id (set_person_id (Some person)) >>
                 setattr id (set_verified true))).
Qed.

Lemma photos_tag_face id person db :
  photos (tag_face id person db).2 = photos db.
Proof.
  unfold tag_face.
  apply (keeps_try_except (fun s => photos s = photos db)); [| done | done].
  unfold tag_face_body.
  apply keeps_bind; [apply keeps_photos_query|].
  intros [r|]; [|apply keeps_ret].
  apply keeps_bind. { intros s H. unfold setattr. simpl. by destruct (_ !! _). }
  intros _. apply keeps_bind.
  { intros s H. unfold setattr. simpl. by destruct (_ !! _). }
  intros _. apply keeps_bind; [|intros _; apply keeps_ret].
  intros s H. rewrite session_commit_spec.
  by destruct (head (faults s)) as [[?|]|].
Qed.

(** Tagging an unverified region of a user's photo moves it from the
    unverified to the verified regions. *)
Lemma count_tags_after_tagging user_id id person (m : gmap Z PhotoPerson) r db db' :
  txn db = m -> txn db' = <[id := tagged person r]> m ->
  photos db' = photos db ->
  m !! id = Some r ->
  verified r = false ->
  photo_user_id <$> photos db !! photo_id r = Some user_id ->
  count_tags user_id true db' = S (count_tags user_id true db) /\
  S (count_tags user_id false db') = count_tags user_id false db.
Proof.
  intros Ht Ht' Hp Hr Hv Hu. unfold count_tags. rewrite Ht, Ht', Hp. split.
  - rewrite map_filter_insert_True by (simpl; by rewrite Hu).
    apply map_size_insert_None.
    apply map_lookup_filter_None. right. intros r' Hr' [_ Hv'].
    rewrite Hr in Hr'. injection Hr' as <-. simpl in Hv'. congruence.
  - rewrite map_filter_insert_False by (simpl; by intros [_ ?]).
    rewrite map_filter_delete.
    set (unverified := filter _ m).
    assert (unverified !! id = Some r) as Hin.
    { apply map_lookup_filter_Some. split; [exact Hr | by split]. }
    rewrite <- (insert_delete_id unverified id r Hin) at 2.
    by rewrite map_size_insert_None by apply lookup_delete_eq.
Qed.

End Sequences.

(** X18.  The operations leave the session clean: started on a session
    with nothing pending, [process_photo_for_faces] and [tag_face] end -
    through their commit, their rollback or an early return - on a session
    with nothing pending, so calls can follow one another. *)
Theorem operations_keep_session_clean (op : operation) (db : Db) :
  clean db -> clean (run op db).2.
Proof.
  intros Hc. destruct op as [self fs photo_id | id person]; simpl.
  - by apply process_photo_clean.
  - by apply tag_face_clean.
Qed.

Lemma operations_keep_session_clean_witness :
  clean (run (TagFace 1 7)
           (run (ProcessPhoto Scenario.service Scenario.disk 1) Scenario.db0).2).2.
Proof.
  apply (operations_keep_session_clean (TagFace 1 7)).
  apply (operations_keep_session_clean
           (ProcessPhoto Scenario.service Scenario.disk 1) Scenario.db0).
  repeat split.
Defined.

(** X19.  Tagging shows in the statistics: when [tag_face] succeeds on an
    unverified region of one of the user's photos, the user's
    ['verified_tags'] is one more and ['unverified_tags'] one less in the
    statistics taken after the call than in those taken before (clean
    session, no database error in the statistics queries). *)
Theorem tagging_moves_one_tag
    (self : FaceDetectionService) (user_id photo_person_id person_id : Z)
    (db : Db) (r : PhotoPerson) :
  clean db ->
  committed db !! photo_person_id = Some r ->
  verified r = false ->
  photo_user_id <$> photos db !! photo_id r = Some user_id ->
  (tag_face photo_person_id person_id db).1 = true ->
  let db' := (tag_face photo_person_id person_id db).2 in
  first_fault 5 (faults db) = None ->
  first_fault 5 (faults db') = None ->
  exists verified_n unverified_n : nat,
    (get_face_detection_stats self user_id db).1 !! "verified_tags"
      = Some (PInt (Z.of_nat verified_n)) /\
    (get_face_detection_stats self user_id db).1 !! "unverified_tags"
      = Some (PInt (Z.of_nat (S unverified_n))) /\
    (get_face_detection_stats self user_id db').1 !! "verified_tags"
      = Some (PInt (Z.of_nat (S verified_n))) /\
    (get_face_detection_stats self user_id db').1 !! "unverified_tags"
      = Some (PInt (Z.of_nat unverified_n)).
Proof.
  intros Hc Hr Hv Hu Hok db' Hf Hf'. subst db'.
  destruct (tag_face_true_inv _ _ _ Hc Hok) as (r' & Hr' & Hcm & Hc').
  rewrite Hr in Hr'. injection Hr' as <-.
  rewrite (stats_on_clean _ _ _ Hc Hf), (stats_on_clean _ _ _ Hc' Hf').
  destruct (count_tags_after_tagging user_id photo_person_id person_id
              (committed db) r db (tag_face photo_person_id person_id db).2)
    as [H1 H2]; try done.
  - by destruct Hc as (? & _).
  - destruct Hc' as (-> & _). done.
  - apply photos_tag_face.
  - exists (count_tags user_id true db),
      (count_tags user_id false (tag_face photo_person_id person_id db).2).
    rewrite H1, H2. split_and!; by simplify_map_eq.
Qed.

Lemma tagging_moves_one_tag_witness :
  exists verified_n unverified_n : nat,
    (get_face_detection_stats Scenario.service 7 Scenario.db1).1 !! "verified_tags"
      = Some (PInt (Z.of_nat verified_n)) /\
    (get_face_detection_stats Scenario.service 7 Scenario.db1).1 !! "unverified_tags"
      = Some (PInt (Z.of_nat (S unverified_n))) /\
    (get_face_detection_stats Scenario.service 7 (tag_face 1 7 Scenario.db1).2).1
      !! "verified_tags" = Some (PInt (Z.of_nat (S verified_n))) /\
    (get_face_detection_stats Scenario.service 7 (tag_face 1 7 Scenario.db1).2).1
      !! "unverified_tags" = Some (PInt (Z.of_nat unverified_n)).
Proof.
  apply (tagging_moves_one_tag Scenario.service 7 1 7 Scenario.db1 Scenario.region_A).
  - repeat split.
  - vm_compute. reflexivity.
  - reflexivity.
  - vm_compute. reflexivity.
  - vm_compute. reflexivity.
  - reflexivity.
  - reflexivity.
Defined.
